(** * AutoIsys Utility: a shallow embedding of [main.py]

    The program is a sequential host-bootstrap script.  Its only stateful
    logic is [merge_config], which mutates a Python dictionary in place and
    inserts the values of the default dictionary by reference.  Dictionaries
    are therefore modelled as objects in a store, addressed by references, so
    that sharing between the default and the current configuration (and
    sharing inside a configuration, as produced by YAML anchors) is visible.

    The remaining functions read the configuration and the environment, print
    status lines and start external processes; they are modelled as functions
    returning the list of emitted events together with an outcome. *)

From Stdlib Require Import Ascii ZArith.
From stdpp Require Import gmap strings list fin_maps.

Local Open Scope string_scope.
Local Open Scope list_scope.
Set Warnings "-register-all".

(** ** Python values and the object store *)

Abbreviation addr := positive.

(** Scalars and lists are never mutated by the program and are carried by
    value; a dictionary is a reference into the store. *)
Inductive pyval : Type :=
  | VNone
  | VBool (b : bool)
  | VInt (z : Z)
  | VStr (s : string)
  | VList (l : list pyval)
  | VDict (a : addr).

(** A dictionary object: its items in insertion order.  Keys are strings
    (every key the program looks up is a string literal). *)
Abbreviation dict := (list (string * pyval)).
Abbreviation heap := (gmap addr (list (string * pyval))).

Inductive exn : Type :=
  | RuntimeError      (* dictionary changed size during iteration *)
  | RecursionError    (* recursion limit reached *)
  | TypeError
  | AttributeError
  | IndexError
  | SystemExit (code : Z)
  | ValueError        (* embedded null byte in an argument of a command *)
  | OSError           (* FileNotFoundError, PermissionError: a command could
                         not be started *)
  | InvalidHeap.      (* a reference that designates no object; no Python
                         program can build one *)

Inductive result (A : Type) : Type :=
  | Ok (a : A)
  | Raise (e : exn).
Arguments Ok {A} a.
Arguments Raise {A} e.

(** [isinstance(v, dict)] *)
Definition is_dict (v : pyval) : bool :=
  match v with VDict _ => true | _ => false end.

(** [d[k]] on the items of a dictionary, [None] when [k not in d]. *)
Fixpoint dict_get (k : string) (es : dict) : option pyval :=
  match es with
  | [] => None
  | (k', v) :: rest => if String.eqb k k' then Some v else dict_get k rest
  end.

(** [d[k] = v]: rebinds an existing key in place, otherwise appends. *)
Fixpoint dict_setitem (k : string) (v : pyval) (es : dict) : dict :=
  match es with
  | [] => [(k, v)]
  | (k', v') :: rest =>
      if String.eqb k k' then (k', v) :: rest
      else (k', v') :: dict_setitem k v rest
  end.

(** ** [merge_config] *)

Section merge_loop.
(** The recursive call [merge_config(value, current[key])]. *)
Variable rec : addr -> addr -> heap -> result heap.
Variables default current : addr.
(** Size of [default] when [default.items()] started to be iterated. *)
Variable size0 : nat.

(** The body of the [for] loop. *)
Definition merge_entry (key : string) (value : pyval) (h : heap) : result heap :=
  match h !! current with
  | None => Raise InvalidHeap
  | Some cur =>
      match dict_get key cur with
      | None => Ok (<[current := dict_setitem key value cur]> h)
      | Some cv =>
          match value, cv with
          | VDict dv, VDict ca => rec dv ca h
          | _, _ => Ok h
          end
      end
  end.

(** The loop over the items of [default].  Items are only ever appended to
    a dictionary, so the iterator sees the items that existed when the loop
    started; each call to [next] first checks that the size of the
    dictionary is still the one recorded at the start. *)
Fixpoint merge_items (items : dict) (h : heap) : result heap :=
  match h !! default with
  | None => Raise InvalidHeap
  | Some now =>
      if negb (length now =? size0)%nat then Raise RuntimeError
      else
        match items with
        | [] => Ok h
        | (key, value) :: rest =>
            match merge_entry key value h with
            | Ok h' => merge_items rest h'
            | Raise e => Raise e
            end
        end
  end.
End merge_loop.

(** [fuel] bounds the depth of the Python call stack. *)
Fixpoint merge_config (fuel : nat) (default current : addr) (h : heap) : result heap :=
  match fuel with
  | O => Raise RecursionError
  | S n =>
      match h !! default with
      | None => Raise InvalidHeap
      | Some items =>
          merge_items (merge_config n) default current (length items) items h
      end
  end.

(** ** [DEFAULT_CONFIG] *)

Definition DEFAULT_CONFIG : addr := 1%positive.
Definition DEFAULT_app : addr := 2%positive.
Definition DEFAULT_system : addr := 3%positive.

Definition default_items : dict :=
  [("app", VDict DEFAULT_app);
   ("system", VDict DEFAULT_system);
   ("packages", VList [VStr "git"; VStr "curl"; VStr "htop"])].

Definition app_items : dict :=
  [("name", VStr "AutoIsys"); ("version", VStr "0.0.2")].

Definition system_items : dict :=
  [("auto_update", VBool true);
   ("auto_install", VBool true);
   ("install_docker", VBool true);
   ("enable_services", VList [VStr "docker"])].

(** The store right after the module-level literal has been evaluated. *)
Definition module_heap : heap :=
  <[DEFAULT_CONFIG := default_items]>
    (<[DEFAULT_app := app_items]> (<[DEFAULT_system := system_items]> ∅)).

(** Value found by following a path of keys through nested dictionaries. *)
Fixpoint path_get (h : heap) (v : pyval) (p : list string) : option pyval :=
  match p with
  | [] => Some v
  | k :: p' =>
      match v with
      | VDict a =>
          match h !! a with
          | Some es =>
              match dict_get k es with
              | Some w => path_get h w p'
              | None => None
              end
          | None => None
          end
      | _ => None
      end
  end.

(** ** The environment and the events of a run *)

(** The machine the program runs on.  What is on the execution path, and
    whether a command can be started, may change with every process the
    program runs: both are given as functions of the commands run so far,
    and [past] holds the commands run up to now. *)
Record Env : Type := {
  system : string;                    (* platform.system() *)
  mac_ver : string;                   (* platform.mac_ver()[0] *)
  os_release : option (list string);  (* the lines of /etc/os-release, as
                                         iterating the file yields them;
                                         None when the file does not exist *)
  past : list (list string);
  which_after : list (list string) -> string -> option string;
  launches_after : list (list string) -> list string -> bool
}.

(** [shutil.which(cmd)], now. *)
Definition which (env : Env) (cmd : string) : option string :=
  which_after env (past env) cmd.

(** The machine once the processes [cmds] have run as well. *)
Definition advance (env : Env) (cmds : list (list string)) : Env :=
  {| system := system env;
     mac_ver := mac_ver env;
     os_release := os_release env;
     past := past env ++ cmds;
     which_after := which_after env;
     launches_after := launches_after env |}.

(** A machine on which running a process changes nothing: [path] is what
    [shutil.which] finds, and a command can be started exactly when its
    program is found. *)
Definition static_host (system mac_ver : string)
    (os_release : option (list string)) (path : string -> option string) : Env :=
  {| system := system;
     mac_ver := mac_ver;
     os_release := os_release;
     past := [];
     which_after := fun _ => path;
     launches_after := fun _ cmd =>
       match cmd with
       | prog :: _ => match path prog with Some _ => true | None => false end
       | [] => false
       end |}.

(** What a run does to the outside world. [subprocess.run] waits for the
    child and the program ignores its result, so a process that was started
    is one event. *)
Inductive event : Type :=
  | Print (line : string)
  | Run (cmd : list string)
  | Dump (store : heap) (root : addr).   (* yaml.dump(obj, f): the file now
                                            holds the dictionary [root] as
                                            it is in [store] *)

(** A computation: the events emitted so far and how it ended. *)
Definition M (A : Type) : Type := (list event * result A)%type.

Definition ret {A} (a : A) : M A := ([], Ok a).
Definition raise {A} (e : exn) : M A := ([], Raise e).
Definition lift {A} (r : result A) : M A := ([], r).
Definition print (line : string) : M unit := ([Print line], Ok tt).
(** Whether the string holds a NUL character. *)
Fixpoint has_nul (s : string) : bool :=
  match s with
  | EmptyString => false
  | String a rest => Ascii.eqb a Ascii.zero || has_nul rest
  end.

(** [subprocess.run(cmd)] on a list of strings: an argument with a NUL
    character is refused with a [ValueError]; when the command cannot be
    started the call raises an [OSError]; in both cases no process has
    run. *)
Definition run (env : Env) (cmd : list string) : M unit :=
  if existsb has_nul cmd then ([], Raise ValueError)
  else if launches_after env (past env) cmd then ([Run cmd], Ok tt)
  else ([], Raise OSError).
(** [yaml.dump(obj, f)] into the configuration file. *)
Definition dump (store : heap) (root : addr) : M unit := ([Dump store root], Ok tt).

Definition bind {A B} (m : M A) (k : A -> M B) : M B :=
  match m with
  | (t, Ok a) => let (t', r) := k a in (t ++ t', r)
  | (t, Raise e) => (t, Raise e)
  end.

Notation "'let*' x ':=' c1 'in' c2" := (bind c1 (fun x => c2))
  (at level 10, x name, c1 at level 100, c2 at level 200).
Notation "c1 ';;' c2" := (bind c1 (fun _ => c2))
  (at level 100, c2 at level 200, right associativity).

(** Exit status of the process for the outcome of [main]. *)
Definition exit_status (r : result unit) : Z :=
  match r with
  | Ok _ => 0
  | Raise (SystemExit code) => code
  | Raise _ => 1
  end.

(** The process invocations among the events. *)
Definition runs (t : list event) : list (list string) :=
  omap (fun e => match e with Run cmd => Some cmd | _ => None end) t.

(** Sequencing on a machine: what follows [m] sees the machine as the
    processes of [m] have left it. *)
Definition bind_in {A B} (env : Env) (m : M A) (k : Env -> A -> M B) : M B :=
  bind m (fun a => k (advance env (runs m.1)) a).

(** ** Strings *)

(** Characters are the code points below 256; [is_space] is [str.isspace]
    on them. *)
Definition is_space (a : ascii) : bool :=
  let n := nat_of_ascii a in
  ((9 <=? n) && (n <=? 13) || (28 <=? n) && (n <=? 32)
   || (n =? 133) || (n =? 160))%nat.

(** The double-quote character (code point 34). *)
Definition is_quote (a : ascii) : bool := Ascii.eqb a (ascii_of_nat 34).

Fixpoint lstrip (f : ascii -> bool) (s : string) : string :=
  match s with
  | EmptyString => EmptyString
  | String a rest => if f a then lstrip f rest else s
  end.

Fixpoint rstrip (f : ascii -> bool) (s : string) : string :=
  match s with
  | EmptyString => EmptyString
  | String a rest =>
      match rstrip f rest with
      | EmptyString => if f a then EmptyString else String a EmptyString
      | rest' => String a rest'
      end
  end.

(** [s.strip()] with [is_space]; stripping the double quotes with
    [is_quote]. *)
Definition strip (f : ascii -> bool) (s : string) : string :=
  rstrip f (lstrip f s).

(** [s.split(c, 1)[1]]: what follows the first [c]; [None] stands for the
    [IndexError] raised when [c] does not occur. *)
Fixpoint after_char (c : ascii) (s : string) : option string :=
  match s with
  | EmptyString => None
  | String a rest => if Ascii.eqb a c then Some rest else after_char c rest
  end.

(** The characters of a string, as iterating it yields them. *)
Fixpoint chars (s : string) : list string :=
  match s with
  | EmptyString => []
  | String a rest => String a EmptyString :: chars rest
  end.

(** ** Reading Python values *)

(** [bool(v)] *)
Definition truthy (h : heap) (v : pyval) : bool :=
  match v with
  | VNone => false
  | VBool b => b
  | VInt z => negb (z =? 0)%Z
  | VStr s => negb (String.eqb s "")
  | VList l => match l with [] => false | _ :: _ => true end
  | VDict a => match h !! a with Some (_ :: _) => true | _ => false end
  end.

(** [iter(v)], as far as the program iterates: a list yields its elements,
    a string its characters, a dictionary its keys; anything else is not
    iterable. *)
Definition py_iter (h : heap) (v : pyval) : result (list pyval) :=
  match v with
  | VList l => Ok l
  | VStr s => Ok (VStr <$> chars s)
  | VDict a =>
      match h !! a with
      | Some es => Ok (VStr <$> es.*1)
      | None => Raise InvalidHeap
      end
  | _ => Raise TypeError
  end.

(** [d.get(k, dflt)] on the items of a dictionary. *)
Definition py_get (es : dict) (k : string) (dflt : pyval) : pyval :=
  match dict_get k es with Some v => v | None => dflt end.

(** The items of [config.get(key, {})], the receiver of a further [.get]:
    the empty literal when [key] is missing, and an [AttributeError] when it
    is bound to something that has no [get]. *)
Definition config_section (h : heap) (config : addr) (key : string) : result dict :=
  match h !! config with
  | None => Raise InvalidHeap
  | Some cfg =>
      match dict_get key cfg with
      | None => Ok []
      | Some (VDict a) =>
          match h !! a with Some es => Ok es | None => Raise InvalidHeap end
      | Some _ => Raise AttributeError
      end
  end.

(** [config.get("system", {}).get(key, dflt)] *)
Definition system_get (h : heap) (config : addr) (key : string) (dflt : pyval)
    : result pyval :=
  match config_section h config "system" with
  | Ok sys => Ok (py_get sys key dflt)
  | Raise e => Raise e
  end.

(** [config.get(key, dflt)] *)
Definition config_get (h : heap) (config : addr) (key : string) (dflt : pyval)
    : result pyval :=
  match h !! config with
  | Some cfg => Ok (py_get cfg key dflt)
  | None => Raise InvalidHeap
  end.

(** A Python dictionary literal with string keys, used as a dispatch table. *)
Fixpoint table_get {A} (k : string) (t : list (string * A)) : option A :=
  match t with
  | [] => None
  | (k', v) :: rest => if String.eqb k k' then Some v else table_get k rest
  end.

(** ** [load_config] *)

(** Parsing is outside the model.  [file] is [None] when the configuration
    file does not exist, and otherwise the value [yaml.safe_load(f)]
    returned, whose dictionaries are in the store.  The result is the new
    store and the dictionary that becomes the global [config].

    [current = yaml.safe_load(f) or {}] takes a new empty dictionary when the
    loaded value is false; [merge_config] raises a [TypeError] on a value
    that is not a dictionary (at the membership test, the item assignment or
    the subscript, depending on its type). *)
Definition load_config (fuel : nat) (file : option pyval) (h : heap)
    : M (heap * addr) :=
  match file with
  | None =>
      print "[CONFIG] Creating config.yaml" ;;
      dump h DEFAULT_CONFIG ;;
      match h !! DEFAULT_CONFIG with
      | Some items =>
          (* DEFAULT_CONFIG.copy(): a new dictionary with the same items *)
          let a := fresh (dom h) in ret (<[a := items]> h, a)
      | None => raise InvalidHeap
      end
  | Some loaded =>
      let '(h0, current) :=
        if truthy h loaded then (h, loaded)
        else let a := fresh (dom h) in (<[a := []]> h, VDict a) in
      match current with
      | VDict c =>
          let* h1 := lift (merge_config fuel DEFAULT_CONFIG c h0) in
          dump h1 c ;;
          ret (h1, c)
      | _ => raise TypeError
      end
  end.

(** ** The program *)

(** [str(v)]; for the values that are not strings, [None] or booleans the
    rendering is left to the interpreter, as [py_repr]. *)
Definition py_str (py_repr : heap -> pyval -> string) (h : heap) (v : pyval)
    : string :=
  match v with
  | VStr s => s
  | VNone => "None"
  | VBool true => "True"
  | VBool false => "False"
  | _ => py_repr h v
  end.

Definition logo : M unit :=
  print "==============================================" ;;
  print "              AutoIsys Utility" ;;
  print "==============================================".

(** The loop of [get_linux_distro] over the lines of the file; falling
    off the end of the function returns [None]. *)
Fixpoint scan_release (lines : list string) : result pyval :=
  match lines with
  | [] => Ok VNone
  | line :: rest =>
      if String.prefix "PRETTY_NAME" line then
        match after_char "=" line with
        | Some v => Ok (VStr (strip is_quote (strip is_space v)))
        | None => Raise IndexError
        end
      else scan_release rest
  end.

Definition get_linux_distro (env : Env) : result pyval :=
  match os_release env with
  | None => Ok (VStr "Unknown Linux")     (* except FileNotFoundError *)
  | Some lines => scan_release lines
  end.

Definition check_os (env : Env) (py_repr : heap -> pyval -> string) (h : heap)
    : M unit :=
  if String.eqb (system env) "Linux" then
    let* name := lift (get_linux_distro env) in
    print ("OS: " +:+ py_str py_repr h name)
  else if String.eqb (system env) "Darwin" then
    print ("OS: macOS " +:+ mac_ver env)
  else
    print "Unsupported OS" ;; raise (SystemExit 1).

(** Truth value of [shutil.which(cmd)]. *)
Definition found (env : Env) (cmd : string) : bool :=
  match which env cmd with
  | Some path => negb (String.eqb path "")
  | None => false
  end.

Definition managers : list (string * string) :=
  [("pacman", "pacman"); ("apt", "apt"); ("dnf", "dnf"); ("yum", "yum");
   ("zypper", "zypper"); ("apk", "apk"); ("emerge", "emerge");
   ("xbps-install", "xbps"); ("nix-env", "nix")].

(** [for cmd, name in managers.items(): if shutil.which(cmd): return name] *)
Fixpoint first_found (env : Env) (candidates : list (string * string))
    : option string :=
  match candidates with
  | [] => None
  | (cmd, name) :: rest =>
      if found env cmd then Some name else first_found env rest
  end.

Definition detect_package_manager (env : Env) : string :=
  if String.eqb (system env) "Linux" then
    match first_found env managers with
    | Some name => name
    | None => "unknown-linux"
    end
  else if String.eqb (system env) "Darwin" then
    if found env "brew" then "brew"
    else if found env "port" then "macports"
    else "unknown-macos"
  else "unsupported-os".

Definition update_commands : list (string * list string) :=
  [("pacman", ["sudo"; "pacman"; "-Syu"]);
   ("apt", ["sudo"; "apt"; "update"]);
   ("dnf", ["sudo"; "dnf"; "upgrade"; "-y"]);
   ("yum", ["sudo"; "yum"; "update"; "-y"]);
   ("apk", ["sudo"; "apk"; "upgrade"]);
   ("brew", ["brew"; "update"])].

Definition auto_update_system (env : Env) (h : heap) (config : addr) : M unit :=
  let* flag := lift (system_get h config "auto_update" (VBool false)) in
  if negb (truthy h flag) then print "[INFO] Auto update disabled"
  else
    let pm := detect_package_manager env in
    match table_get pm update_commands with
    | None => print ("[WARN] Auto update not supported for: " +:+ pm)
    | Some cmd =>
        print ("[RUN] " +:+ String.concat " " cmd) ;;
        run env cmd
    end.

Definition docker_packages : list (string * list string) :=
  [("pacman", ["sudo"; "pacman"; "-S"; "--noconfirm"; "docker"]);
   ("apt", ["sudo"; "apt"; "install"; "-y"; "docker.io"]);
   ("dnf", ["sudo"; "dnf"; "install"; "-y"; "docker"]);
   ("yum", ["sudo"; "yum"; "install"; "-y"; "docker"]);
   ("apk", ["sudo"; "apk"; "add"; "docker"]);
   ("brew", ["brew"; "install"; "--cask"; "docker"])].

Definition install_docker (env : Env) (h : heap) (config : addr) : M unit :=
  let* flag := lift (system_get h config "install_docker" (VBool false)) in
  if negb (truthy h flag) then print "[INFO] Docker install disabled"
  else
    let pm := detect_package_manager env in
    match table_get pm docker_packages with
    | None => print ("[WARN] Docker install not supported for: " +:+ pm)
    | Some cmd =>
        print "[INFO] Installing Docker" ;;
        run env cmd
    end.

(** The loop of [enable_services].  The status line is printed with
    [str(service)]; [subprocess.run] refuses an argument that is not a
    string.  The next service is handled on the machine as the process has
    left it. *)
Fixpoint enable_loop (env : Env) (py_repr : heap -> pyval -> string) (h : heap)
    (services : list pyval) : M unit :=
  match services with
  | [] => ret tt
  | service :: rest =>
      print ("[SERVICE] Enabling " +:+ py_str py_repr h service) ;;
      bind_in env
        match service with
        | VStr s => run env ["sudo"; "systemctl"; "enable"; "--now"; s]
        | _ => raise TypeError
        end
        (fun env' _ => enable_loop env' py_repr h rest)
  end.

Definition enable_services (env : Env) (py_repr : heap -> pyval -> string)
    (h : heap) (config : addr) : M unit :=
  let* services := lift (system_get h config "enable_services" (VList [])) in
  if negb (truthy h services) then print "[INFO] No services to enable"
  else if negb (found env "systemctl") then print "[WARN] systemd not detected"
  else
    let* items := lift (py_iter h services) in
    enable_loop env py_repr h items.

(** [shutil.which(pkg) is not None] *)
Definition is_installed (env : Env) (pkg : string) : bool :=
  match which env pkg with Some _ => true | None => false end.

Definition INSTALL_COMMANDS : list (string * (string -> list string)) :=
  [("pacman", fun p => ["sudo"; "pacman"; "-S"; "--noconfirm"; p]);
   ("apt", fun p => ["sudo"; "apt"; "install"; "-y"; p]);
   ("dnf", fun p => ["sudo"; "dnf"; "install"; "-y"; p]);
   ("yum", fun p => ["sudo"; "yum"; "install"; "-y"; p]);
   ("apk", fun p => ["sudo"; "apk"; "add"; p]);
   ("brew", fun p => ["brew"; "install"; p])].

(** What the loop of [auto_install_packages] does for one package name. *)
Definition install_one (env : Env) (mk : string -> list string) (pkg : string)
    : M unit :=
  if is_installed env pkg then print ("[OK] " +:+ pkg +:+ " already installed")
  else
    let cmd := mk pkg in
    print ("[INSTALL] " +:+ String.concat " " cmd) ;;
    run env cmd.

(** The loop itself; [shutil.which] refuses a package that is not a
    string.  The next package is looked up on the machine as the install of
    this one has left it. *)
Fixpoint install_loop (env : Env) (mk : string -> list string)
    (packages : list pyval) : M unit :=
  match packages with
  | [] => ret tt
  | VStr pkg :: rest =>
      bind_in env (install_one env mk pkg)
        (fun env' _ => install_loop env' mk rest)
  | _ :: _ => raise TypeError
  end.

Definition auto_install_packages (env : Env) (h : heap) (config : addr)
    : M unit :=
  let* flag := lift (system_get h config "auto_install" (VBool false)) in
  if negb (truthy h flag) then print "[INFO] Auto install disabled"
  else
    let* packages := lift (config_get h config "packages" (VList [])) in
    if negb (truthy h packages) then print "[INFO] No packages to install"
    else
      let pm := detect_package_manager env in
      match table_get pm INSTALL_COMMANDS with
      | None => print ("[WARN] Package manager not supported: " +:+ pm)
      | Some mk =>
          print ("[INFO] Installing packages using: " +:+ pm) ;;
          let* items := lift (py_iter h packages) in
          install_loop env mk items
      end.

(** Each step runs on the machine as the steps before it have left it. *)
Definition main (env : Env) (py_repr : heap -> pyval -> string) (h : heap)
    (config : addr) : M unit :=
  logo ;;
  check_os env py_repr h ;;
  bind_in env (auto_update_system env h config) (fun env1 _ =>
  bind_in env1 (install_docker env1 h config) (fun env2 _ =>
  bind_in env2 (auto_install_packages env2 h config) (fun env3 _ =>
  enable_services env3 py_repr h config))).

(** The module: [config = load_config()] at import, then [main()]. *)
Definition program (fuel : nat) (env : Env) (py_repr : heap -> pyval -> string)
    (file : option pyval) (h : heap) : M unit :=
  let* loaded := load_config fuel file h in
  main env py_repr loaded.1 loaded.2.

(** ** The three steps that go through a package manager *)

Inductive action : Type := Update | InstallDocker | InstallPackage.

Definition step (env : Env) (h : heap) (config : addr) (a : action) : M unit :=
  match a with
  | Update => auto_update_system env h config
  | InstallDocker => install_docker env h config
  | InstallPackage => auto_install_packages env h config
  end.

(** The configuration flag that switches the step on. *)
Definition flag_of (a : action) : string :=
  match a with
  | Update => "auto_update"
  | InstallDocker => "install_docker"
  | InstallPackage => "auto_install"
  end.

(** Whether the dispatch table of the step has an entry for [pm]. *)
Definition supports (a : action) (pm : string) : bool :=
  match a with
  | Update => bool_decide (is_Some (table_get pm update_commands))
  | InstallDocker => bool_decide (is_Some (table_get pm docker_packages))
  | InstallPackage => bool_decide (is_Some (table_get pm INSTALL_COMMANDS))
  end.

(** The step is switched on and, for the package list, has something to
    install: it gets as far as looking up the package manager. *)
Definition dispatches (h : heap) (config : addr) (a : action) : Prop :=
  (exists flag,
     system_get h config (flag_of a) (VBool false) = Ok flag /\
     truthy h flag = true) /\
  match a with
  | InstallPackage =>
      exists packages,
        config_get h config "packages" (VList []) = Ok packages /\
        truthy h packages = true
  | _ => True
  end.

Definition unsupported_warning (a : action) (pm : string) : string :=
  match a with
  | Update => "[WARN] Auto update not supported for: " +:+ pm
  | InstallDocker => "[WARN] Docker install not supported for: " +:+ pm
  | InstallPackage => "[WARN] Package manager not supported: " +:+ pm
  end.

Definition disabled_message (a : action) : string :=
  match a with
  | Update => "[INFO] Auto update disabled"
  | InstallDocker => "[INFO] Docker install disabled"
  | InstallPackage => "[INFO] Auto install disabled"
  end.

(** The configuration has no [system] entry, or its [system] mapping has no
    entry for the flag of the step. *)
Definition flag_absent (h : heap) (config : addr) (a : action) : Prop :=
  exists cfg,
    h !! config = Some cfg /\
    (dict_get "system" cfg = None \/
     exists s sys,
       dict_get "system" cfg = Some (VDict s) /\ h !! s = Some sys /\
       dict_get (flag_of a) sys = None).

(** ** Heap predicates *)

(** Dictionaries only grow: every object keeps its items and may receive
    new ones at the end. *)
Definition heap_le (h h' : heap) : Prop :=
  forall a es, h !! a = Some es -> exists ext, h' !! a = Some (es ++ ext).

(** Python dictionaries have pairwise distinct keys. *)
Definition heap_wf (h : heap) : Prop :=
  forall a es, h !! a = Some es -> NoDup es.*1.

(** Every dictionary stored as an item of a dictionary exists. *)
Definition heap_closed (h : heap) : Prop :=
  forall a es k b,
    h !! a = Some es -> dict_get k es = Some (VDict b) -> is_Some (h !! b).

(** All items of [items] are scalars or lists: merging them never recurses. *)
Definition flat (items : dict) : Prop :=
  forall k v, (k, v) ∈ items -> is_dict v = false.

(** [es] binds every key of [items]. *)
Definition covers (items es : dict) : Prop :=
  forall k, k ∈ items.*1 -> is_Some (dict_get k es).

(** What the loop of [merge_config] does to [cur] when [items] is flat:
    missing keys are appended in order, existing ones are left alone. *)
Definition fill_missing (items cur : dict) : dict :=
  fold_left
    (fun acc kv =>
       match dict_get kv.1 acc with
       | None => acc ++ [kv]
       | Some _ => acc
       end)
    items cur.

(** Every object keeps its items; the keys it receives are among [ks]. *)
Definition grows_with (ks : list string) (h h' : heap) : Prop :=
  forall a es, h !! a = Some es ->
    exists ext, h' !! a = Some (es ++ ext) /\ forall k, k ∈ ext.*1 -> k ∈ ks.

Definition default_addrs : list addr :=
  [DEFAULT_CONFIG; DEFAULT_app; DEFAULT_system].

(** The three dictionaries of [DEFAULT_CONFIG] are in the store, as the
    module-level literal built them. *)
Definition has_default (h : heap) : Prop :=
  (h !! DEFAULT_CONFIG) = Some default_items /\
  (h !! DEFAULT_app) = Some app_items /\
  (h !! DEFAULT_system) = Some system_items.

(** A configuration mapping as the loader obtains it from storage: a
    dictionary of its own whose nested dictionaries exist and are none of
    the dictionaries of [DEFAULT_CONFIG].  Sharing inside the configuration
    is allowed. *)
Definition loaded_config (h : heap) (c : addr) : Prop :=
  (c ∉ default_addrs) /\
  exists es, h !! c = Some es /\
    forall k a, dict_get k es = Some (VDict a) ->
      (a ∉ default_addrs) /\ is_Some (h !! a).

(** After the merge, [key] is bound in the configuration; it is bound to
    the default's own dictionary [sub] when it was missing before, and if it
    is bound to a dictionary, that dictionary binds every key of [items]. *)
Definition filled (h0 h : heap) (c : addr) (key : string) (sub : addr)
    (items : dict) : Prop :=
  exists es w,
    h !! c = Some es /\ dict_get key es = Some w /\
    (forall es0, h0 !! c = Some es0 -> dict_get key es0 = None -> w = VDict sub) /\
    (forall a, w = VDict a -> exists ea, h !! a = Some ea /\ covers items ea).

(** [b] is a dictionary nested in [a], at some path of keys. *)
Definition reach (h : heap) (a b : addr) : Prop :=
  exists p, path_get h (VDict a) p = Some (VDict b).

(** No dictionary occurs at two places inside [c] (in particular [c] does
    not contain itself). *)
Definition tree_shaped (h : heap) (c : addr) : Prop :=
  forall p q b,
    path_get h (VDict c) p = Some (VDict b) ->
    path_get h (VDict c) q = Some (VDict b) -> p = q.

(** [d] and [c] have no dictionary in common. *)
Definition separate (h : heap) (d c : addr) : Prop :=
  forall a, reach h d a -> ~ reach h c a.

(** Dictionaries are nested in [d] less than [n] levels deep. *)
Definition depth_below (n : nat) (h : heap) (d : addr) : Prop :=
  forall p a, path_get h (VDict d) p = Some (VDict a) -> (length p < n)%nat.

(** Invariant of the loop of [merge_config default current], started in
    store [h] where [current] is [c] with items [es_c], once the items
    [done] of the default have been handled and the store is [hi]: only
    dictionaries nested in [c] have changed, [c] itself has only received
    keys of [done], and what is nested under the other keys of [c] is
    untouched. *)
Definition loop_inv (h : heap) (c : addr) (es_c : dict) (hi : heap)
    (done : dict) : Prop :=
  heap_wf hi /\ heap_closed hi /\ heap_le h hi /\
  (forall a, ~ reach h c a -> hi !! a = h !! a) /\
  (exists ext, hi !! c = Some (es_c ++ ext) /\
               forall k, k ∈ ext.*1 -> k ∈ done.*1) /\
  (forall k b, dict_get k es_c = Some (VDict b) -> k ∉ done.*1 ->
     forall a, reach h b a -> hi !! a = h !! a).

(** ** Example stores and environments *)

(** The stored configuration [app: myapp], loaded next to the default. *)
Definition user_heap : heap :=
  <[10%positive := [("app", VStr "myapp")]]> module_heap.

(** A default with two nested levels and a configuration whose keys [a] and
    [b] are bound to one and the same (empty) dictionary, as the YAML
    document [a: &s {}] / [b: *s] is loaded. *)
Definition shared_heap : heap :=
  <[20%positive := [("a", VDict 21%positive); ("b", VDict 22%positive)]]>
  (<[21%positive := [("x", VDict 23%positive)]]>
  (<[22%positive := [("x", VDict 24%positive)]]>
  (<[23%positive := [("p", VInt 1)]]>
  (<[24%positive := [("q", VInt 2)]]>
  (<[30%positive := [("a", VDict 31%positive); ("b", VDict 31%positive)]]>
  (<[31%positive := []]> ∅)))))).

(** A default [{a: {x: 1}, n: 7}] at 20 and a configuration [{a: {}}] at
    30, with nothing shared. *)
Definition plain_heap : heap :=
  <[20%positive := [("a", VDict 21%positive); ("n", VInt 7)]]>
  (<[21%positive := [("x", VInt 1)]]>
  (<[30%positive := [("a", VDict 31%positive)]]>
  (<[31%positive := []]> ∅))).

(** A host that is neither Linux nor macOS. *)
Definition windows_env : Env :=
  static_host "Windows" "" None
    (fun _ => None).

(** A Linux host with no known package manager on the path. *)
Definition bare_linux : Env :=
  static_host "Linux" "" None
    (fun _ => None).

(** A Linux host with [apt] and [git] on the path, and no [sudo]. *)
Definition apt_linux : Env :=
  static_host "Linux" "" None
    (fun cmd =>
       if String.eqb cmd "apt" then Some "/usr/bin/apt"
       else if String.eqb cmd "git" then Some "/usr/bin/git"
       else None).

(** A configuration holding only a package list: no [system] mapping. *)
Definition packages_only_heap : heap :=
  <[10%positive := [("packages", VList [VStr "git"])]]> ∅.

(** A Linux host with both [pacman] and [apt] on the path. *)
Definition pacman_apt_linux : Env :=
  static_host "Linux" "" None
    (fun cmd =>
       if String.eqb cmd "pacman" then Some "/usr/bin/pacman"
       else if String.eqb cmd "apt" then Some "/usr/bin/apt"
       else None).


(** A release file with an identifier and a name, and no pretty name. *)
Definition arch_release : list string :=
  ["NAME=Arch
"; "ID=arch
"].

(** A Linux host with that release file. *)
Definition arch_linux : Env :=
  static_host "Linux" "" (Some arch_release)
    (fun _ => None).

(** The store [shared_heap] after the default at 20 has been merged into
    the configuration at 30. *)
Definition shared_heap_merged : heap :=
  Eval vm_compute in
    match merge_config 3 20%positive 30%positive shared_heap with
    | Ok h' => h'
    | Raise _ => ∅
    end.

(** A configuration at 10 with every step switched off by a value that is
    false without being [False], and no service. *)
Definition quiet_heap : heap :=
  <[10%positive :=
      [("system", VDict 11%positive); ("packages", VList [VStr "git"])]]>
  (<[11%positive :=
      [("auto_update", VInt 0); ("install_docker", VStr "");
       ("auto_install", VNone); ("enable_services", VList [])]]> ∅).

(** A macOS host with MacPorts only. *)
Definition macports_mac : Env :=
  static_host "Darwin" "14.5" None
    (fun cmd =>
       if String.eqb cmd "port" then Some "/opt/local/bin/port" else None).

(** A Linux host with [apt], [git] and [systemctl] on the path, and no
    [sudo]. *)
Definition systemd_linux : Env :=
  static_host "Linux" "" None
    (fun cmd =>
       if String.eqb cmd "apt" then Some "/usr/bin/apt"
       else if String.eqb cmd "git" then Some "/usr/bin/git"
       else if String.eqb cmd "systemctl" then Some "/usr/bin/systemctl"
       else None).

(** A configuration at 10 whose package list and service list are plain
    strings, as [packages: git] and [enable_services: ab] are loaded. *)
Definition scalar_heap : heap :=
  <[10%positive :=
      [("system", VDict 11%positive); ("packages", VStr "git")]]>
  (<[11%positive :=
      [("auto_update", VBool false); ("install_docker", VBool false);
       ("auto_install", VBool true); ("enable_services", VStr "ab")]]> ∅).

(** A configuration at 10 with a number in its package list and in its
    service list. *)
Definition mixed_heap : heap :=
  <[10%positive :=
      [("system", VDict 11%positive);
       ("packages", VList [VStr "curl"; VInt 7; VStr "htop"])]]>
  (<[11%positive :=
      [("auto_update", VBool false); ("install_docker", VBool false);
       ("auto_install", VBool true);
       ("enable_services", VList [VStr "docker"; VInt 7; VStr "sshd"])]]> ∅).

(** A configuration at 10 whose [system] entry is a number. *)
Definition broken_heap : heap :=
  <[10%positive := [("system", VInt 5); ("packages", VList [])]]> ∅.

(** A command line that goes through [sudo] or is a [brew] command. *)
Definition privileged (cmd : list string) : Prop :=
  exists rest, cmd = "sudo" :: rest \/ cmd = "brew" :: rest.

(** The events of the loop of [enable_services] for one service name. *)
Definition service_events (s : string) : list event :=
  [Print ("[SERVICE] Enabling " +:+ s);
   Run ["sudo"; "systemctl"; "enable"; "--now"; s]].

(** A Linux host whose release file has a pretty-name line without a
    value. *)
Definition truncated_release_linux : Env :=
  static_host "Linux" "" (Some ["ID=arch
"; "PRETTY_NAME
"])
    (fun _ => None).

(** The three lines [logo] prints. *)
Definition banner : list event := logo.1.

(** The stored configuration [system: 5], loaded next to the default. *)
Definition scalar_system_heap : heap :=
  <[10%positive := [("system", VInt 5)]]> module_heap.

(** A release file whose pretty name is quoted and padded:
    the value is [ "Ubuntu 22.04 LTS" ] between double quotes, with a space
    before the opening quote. *)
Definition ubuntu_release : list string :=
  ["ID=ubuntu
";
   "PRETTY_NAME= " +:+ String (ascii_of_nat 34) "Ubuntu 22.04 LTS"
     +:+ String (ascii_of_nat 34) "
";
   "PRETTY_NAME=ignored
"].

(** A Linux host with that release file. *)
Definition ubuntu_linux : Env :=
  static_host "Linux" "" (Some ubuntu_release)
    (fun _ => None).

(** The only [SystemExit] an outcome can be is the one with status 1. *)
Definition exits_only_with_1 {A} (r : result A) : Prop :=
  forall n, r = Raise (SystemExit n) -> n = 1%Z.

(** A Debian-like machine: [sudo], [apt], [git], [systemctl] and [brew]
    (Homebrew has a Linux port) are on the path from the start, a name is on the path once [sudo apt install -y]
    has run for it, and a command can be started when its program is on the
    path. *)
Definition debian_path (hist : list (list string)) (cmd : string)
    : option string :=
  if bool_decide (cmd ∈ ["sudo"; "apt"; "git"; "systemctl"; "brew"])
     || bool_decide (["sudo"; "apt"; "install"; "-y"; cmd] ∈ hist)
  then Some ("/usr/bin/" +:+ cmd) else None.

Definition debian_host : Env :=
  {| system := "Linux";
     mac_ver := "";
     os_release := None;
     past := [];
     which_after := debian_path;
     launches_after := fun hist cmd =>
       match cmd with
       | prog :: _ =>
           match debian_path hist prog with Some _ => true | None => false end
       | [] => false
       end |}.

(** Commands whose program is [prog] can be started at any time. *)
Definition always_launches (env : Env) (prog : string) : Prop :=
  forall hist args, launches_after env hist (prog :: args) = true.

(** * Properties *)

(** ** Dictionary items *)

Lemma dict_get_app k es ext :
  dict_get k (es ++ ext) =
  match dict_get k es with Some v => Some v | None => dict_get k ext end.
Proof.
  induction es as [|[k' v'] es IH]; simpl; [reflexivity|].
  destruct (String.eqb k k'); [reflexivity|exact IH].
Qed.

Lemma dict_get_app_Some k es ext v :
  dict_get k es = Some v -> dict_get k (es ++ ext) = Some v.
Proof. intros H. rewrite dict_get_app, H. reflexivity. Qed.

Lemma dict_get_None_keys k es : dict_get k es = None <-> k ∉ es.*1.
Proof.
  induction es as [|[k' v'] es IH]; simpl.
  - split; [intros _; apply not_elem_of_nil|reflexivity].
  - destruct (String.eqb_spec k k') as [->|Hne].
    + split; [discriminate|]. intros H. exfalso. apply H. left.
    + rewrite IH. rewrite not_elem_of_cons. tauto.
Qed.

Lemma dict_get_Some_keys k es v : dict_get k es = Some v -> k ∈ es.*1.
Proof.
  intros H. destruct (decide (k ∈ es.*1)) as [|Hn]; [assumption|].
  apply dict_get_None_keys in Hn. congruence.
Qed.

Lemma dict_get_elem_of k es v : dict_get k es = Some v -> (k, v) ∈ es.
Proof.
  induction es as [|[k' v'] es IH]; simpl; [discriminate|].
  destruct (String.eqb_spec k k') as [->|Hne].
  - intros [= ->]. left.
  - intros H. right. auto.
Qed.

Lemma dict_setitem_new k v es :
  dict_get k es = None -> dict_setitem k v es = es ++ [(k, v)].
Proof.
  induction es as [|[k' v'] es IH]; simpl; [reflexivity|].
  destruct (String.eqb k k'); [discriminate|].
  intros H. rewrite IH by assumption. reflexivity.
Qed.

Lemma dict_keys_snoc_NoDup k v (es : dict) :
  NoDup es.*1 -> dict_get k es = None -> NoDup (es ++ [(k, v)]).*1.
Proof.
  intros Hnd Hk. rewrite fmap_app. simpl. apply NoDup_app. split; [assumption|].
  split.
  - intros x Hx Hx'. apply list_elem_of_singleton in Hx'. subst x.
    apply dict_get_None_keys in Hk. contradiction.
  - apply NoDup_singleton.
Qed.

(** ** The store only grows *)

Lemma heap_le_refl h : heap_le h h.
Proof. intros a es H. exists []. rewrite app_nil_r. assumption. Qed.

Lemma heap_le_trans h1 h2 h3 : heap_le h1 h2 -> heap_le h2 h3 -> heap_le h1 h3.
Proof.
  intros H12 H23 a es H.
  destruct (H12 _ _ H) as [e1 H1]. destruct (H23 _ _ H1) as [e2 H2].
  exists (e1 ++ e2). rewrite app_assoc. assumption.
Qed.

Lemma heap_le_insert_snoc h a es k v :
  h !! a = Some es -> heap_le h (<[a := es ++ [(k, v)]]> h).
Proof.
  intros Ha b es' Hb. destruct (decide (a = b)) as [->|Hne].
  - rewrite lookup_insert_eq. exists [(k, v)]. congruence.
  - rewrite lookup_insert_ne by assumption. exists []. rewrite app_nil_r. assumption.
Qed.

Lemma path_get_le h h' v p w :
  heap_le h h' -> path_get h v p = Some w -> path_get h' v p = Some w.
Proof.
  intros Hle. revert v. induction p as [|k p IH]; intros v; simpl; [auto|].
  destruct v; try discriminate.
  destruct (h !! a) as [es|] eqn:Ha; [|discriminate].
  destruct (Hle _ _ Ha) as [ext ->].
  destruct (dict_get k es) as [u|] eqn:Hk; [|discriminate].
  rewrite (dict_get_app_Some _ _ ext _ Hk). apply IH.
Qed.

Section merge_grows.
Variable rec : addr -> addr -> heap -> result heap.
Hypothesis rec_le : forall d c h h', rec d c h = Ok h' -> heap_le h h'.

Lemma merge_entry_le c k v h h' :
  merge_entry rec c k v h = Ok h' -> heap_le h h'.
Proof.
  unfold merge_entry. destruct (h !! c) as [cur|] eqn:Hc; [|discriminate].
  destruct (dict_get k cur) as [cv|] eqn:Hk.
  - destruct v, cv; try (intros [= <-]; apply heap_le_refl). apply rec_le.
  - intros [= <-]. rewrite dict_setitem_new by assumption.
    apply heap_le_insert_snoc. assumption.
Qed.

Lemma merge_items_le d c n items h h' :
  merge_items rec d c n items h = Ok h' -> heap_le h h'.
Proof.
  revert h. induction items as [|[k v] items IH]; intros h; simpl.
  - destruct (h !! d); [|discriminate].
    destruct (negb _); [discriminate|]. intros [= <-]. apply heap_le_refl.
  - destruct (h !! d); [|discriminate].
    destruct (negb _); [discriminate|].
    destruct (merge_entry rec c k v h) as [h1|] eqn:He; [|discriminate].
    intros H. eapply heap_le_trans; [eapply merge_entry_le; eassumption|].
    apply IH. assumption.
Qed.
End merge_grows.

Lemma merge_config_le fuel d c h h' :
  merge_config fuel d c h = Ok h' -> heap_le h h'.
Proof.
  revert d c h h'. induction fuel as [|n IH]; intros d c h h'; simpl; [discriminate|].
  destruct (h !! d); [|discriminate].
  apply merge_items_le. exact IH.
Qed.

(** ** Merging a flat dictionary *)

Lemma fill_missing_cons k v items cur :
  fill_missing ((k, v) :: items) cur =
  fill_missing items
    (match dict_get k cur with None => cur ++ [(k, v)] | Some _ => cur end).
Proof. reflexivity. Qed.

Lemma fill_missing_ext items cur :
  exists ext, fill_missing items cur = cur ++ ext /\
              forall k, k ∈ ext.*1 -> k ∈ items.*1.
Proof.
  revert cur. induction items as [|[k v] items IH]; intros cur.
  - exists []. rewrite app_nil_r. split; [reflexivity|]. intros k Hk. inversion Hk.
  - rewrite fill_missing_cons.
    destruct (dict_get k cur).
    + destruct (IH cur) as (ext & -> & Hext). exists ext.
      split; [reflexivity|]. intros k' Hk'. right. auto.
    + destruct (IH (cur ++ [(k, v)])) as (ext & -> & Hext).
      exists ((k, v) :: ext). rewrite <- app_assoc. split; [reflexivity|].
      intros k' Hk'. simpl in Hk'. apply elem_of_cons in Hk' as [->|Hk'].
      * left.
      * right. auto.
Qed.

Lemma fill_missing_covers items cur : covers items (fill_missing items cur).
Proof.
  revert cur. induction items as [|[k v] items IH]; intros cur k' Hk'; simpl in Hk'.
  - inversion Hk'.
  - rewrite fill_missing_cons.
    apply elem_of_cons in Hk' as [->|Hk']; [|apply IH; assumption].
    destruct (dict_get k cur) as [w|] eqn:Hk.
    + destruct (fill_missing_ext items cur) as (ext & -> & _).
      rewrite (dict_get_app_Some _ _ _ _ Hk). eauto.
    + destruct (fill_missing_ext items (cur ++ [(k, v)])) as (ext & -> & _).
      erewrite dict_get_app_Some; [eauto|].
      rewrite dict_get_app, Hk. simpl. rewrite String.eqb_refl. reflexivity.
Qed.

Lemma fill_missing_id items cur : covers items cur -> fill_missing items cur = cur.
Proof.
  revert cur. induction items as [|[k v] items IH]; intros cur Hc; [reflexivity|].
  rewrite fill_missing_cons.
  destruct (Hc k) as [w ->]; [left|].
  apply IH. intros k' Hk'. apply Hc. right. assumption.
Qed.

Lemma covers_self items : covers items items.
Proof.
  intros k Hk. destruct (dict_get k items) eqn:E; [eauto|].
  apply dict_get_None_keys in E. contradiction.
Qed.

Lemma covers_app items es ext : covers items es -> covers items (es ++ ext).
Proof.
  intros H k Hk. destruct (H k Hk) as [w Hw].
  rewrite (dict_get_app_Some _ _ _ _ Hw). eauto.
Qed.

Lemma flat_tail kv items : flat (kv :: items) -> flat items.
Proof. intros H k v Hin. apply (H k v). right. assumption. Qed.

Lemma merge_entry_scalar rec c k v cv h cur :
  is_dict v = false -> h !! c = Some cur -> dict_get k cur = Some cv ->
  merge_entry rec c k v h = Ok h.
Proof.
  intros Hv Hc Hk. unfold merge_entry. rewrite Hc, Hk.
  destruct v; try reflexivity. discriminate.
Qed.

Lemma merge_entry_absent rec c k v h cur :
  h !! c = Some cur -> dict_get k cur = None ->
  merge_entry rec c k v h = Ok (<[c := cur ++ [(k, v)]]> h).
Proof.
  intros Hc Hk. unfold merge_entry. rewrite Hc, Hk.
  rewrite dict_setitem_new by assumption. reflexivity.
Qed.

Lemma merge_items_flat rec d c dd items h cur :
  d <> c -> flat items -> h !! d = Some dd -> h !! c = Some cur ->
  merge_items rec d c (length dd) items h = Ok (<[c := fill_missing items cur]> h).
Proof.
  intros Hdc. revert h cur.
  induction items as [|[k v] items IH]; intros h cur Hflat Hd Hc.
  - simpl. rewrite Hd, Nat.eqb_refl. simpl. rewrite insert_id by assumption. reflexivity.
  - rewrite fill_missing_cons. simpl. rewrite Hd, Nat.eqb_refl. simpl.
    assert (Hv : is_dict v = false) by (apply (Hflat k); left).
    destruct (dict_get k cur) as [cv|] eqn:Hk.
    + rewrite (merge_entry_scalar _ _ _ _ _ _ _ Hv Hc Hk).
      apply IH; [eapply flat_tail; eassumption|assumption..].
    + rewrite (merge_entry_absent _ _ _ _ _ _ Hc Hk).
      rewrite (IH (<[c := cur ++ [(k, v)]]> h) (cur ++ [(k, v)])).
      * rewrite insert_insert_eq. reflexivity.
      * eapply flat_tail; eassumption.
      * rewrite lookup_insert_ne by congruence. assumption.
      * apply lookup_insert_eq.
Qed.

Lemma merge_config_flat n d c items h cur :
  d <> c -> flat items -> h !! d = Some items -> h !! c = Some cur ->
  merge_config (S n) d c h = Ok (<[c := fill_missing items cur]> h).
Proof.
  intros Hdc Hflat Hd Hc. simpl. rewrite Hd.
  apply merge_items_flat; assumption.
Qed.

(** Merging a flat dictionary into one that already binds all of its keys
    changes nothing, whatever the two objects are. *)
Lemma merge_items_covered rec d c dd items h cur :
  flat items -> h !! d = Some dd -> h !! c = Some cur -> covers items cur ->
  merge_items rec d c (length dd) items h = Ok h.
Proof.
  intros Hflat Hd Hc. induction items as [|[k v] items IH]; intros Hcov; simpl.
  - rewrite Hd, Nat.eqb_refl. reflexivity.
  - rewrite Hd, Nat.eqb_refl. simpl.
    destruct (Hcov k) as [cv Hk]; [left|].
    rewrite (merge_entry_scalar rec c k v cv h cur); [|apply (Hflat k); left|assumption..].
    apply IH; [eapply flat_tail; eassumption|].
    intros k' Hk'. apply Hcov. right. assumption.
Qed.

Lemma merge_config_covered n d c items h cur :
  flat items -> h !! d = Some items -> h !! c = Some cur -> covers items cur ->
  merge_config (S n) d c h = Ok h.
Proof.
  intros Hflat Hd Hc Hcov. simpl. rewrite Hd.
  eapply merge_items_covered; eassumption.
Qed.

(** ** One item of [DEFAULT_CONFIG] at a time *)

Lemma grows_with_refl ks h : grows_with ks h h.
Proof.
  intros a es H. exists []. rewrite app_nil_r. split; [assumption|].
  intros k Hk. inversion Hk.
Qed.

Lemma grows_with_le ks h h' : grows_with ks h h' -> heap_le h h'.
Proof. intros H a es Ha. destruct (H a es Ha) as (ext & E & _). eauto. Qed.

Lemma grows_with_insert ks h a es ext :
  h !! a = Some es -> (forall k, k ∈ ext.*1 -> k ∈ ks) ->
  grows_with ks h (<[a := es ++ ext]> h).
Proof.
  intros Ha Hks b eb Hb. destruct (decide (a = b)) as [->|Hne].
  - rewrite lookup_insert_eq. exists ext. split; [congruence|assumption].
  - rewrite lookup_insert_ne by assumption. exists []. rewrite app_nil_r.
    split; [assumption|]. intros k Hk. inversion Hk.
Qed.

Lemma filled_le h0 h1 h2 c key sub items :
  filled h0 h1 c key sub items -> heap_le h1 h2 -> filled h0 h2 c key sub items.
Proof.
  intros (es & w & Hc & Hk & H0 & Hsub) Hle.
  destruct (Hle _ _ Hc) as [ext Hc2]. exists (es ++ ext), w.
  split; [assumption|]. split; [apply dict_get_app_Some; assumption|].
  split; [assumption|]. intros a Ha. destruct (Hsub a Ha) as (ea & Hea & Hcov).
  destruct (Hle _ _ Hea) as [ext' Hea']. exists (ea ++ ext').
  split; [assumption|]. apply covers_app. assumption.
Qed.

Lemma merge_entry_sub n c key sub items h cur :
  h !! sub = Some items -> flat items -> h !! c = Some cur ->
  (forall a, dict_get key cur = Some (VDict a) -> a <> sub /\ is_Some (h !! a)) ->
  exists h',
    merge_entry (merge_config (S n)) c key (VDict sub) h = Ok h' /\
    grows_with (key :: items.*1) h h' /\
    (forall b, b <> c -> dict_get key cur <> Some (VDict b) -> h' !! b = h !! b) /\
    filled h h' c key sub items.
Proof.
  intros Hsub Hflat Hc Hch.
  destruct (dict_get key cur) as [w|] eqn:Hk.
  - destruct (is_dict w) eqn:Hw.
    + destruct w as [| | | | |a]; try discriminate.
      destruct (Hch a eq_refl) as (Hne & ea & Hea).
      exists (<[a := fill_missing items ea]> h).
      destruct (fill_missing_ext items ea) as (ext & Hfill & Hext).
      split; [|split; [|split]].
      * unfold merge_entry. rewrite Hc, Hk.
        apply merge_config_flat; [congruence|assumption..].
      * rewrite Hfill. apply grows_with_insert; [assumption|].
        intros k Hin. right. auto.
      * intros b _ Hb. apply lookup_insert_ne. congruence.
      * assert (Hc' : exists e, <[a := fill_missing items ea]> h !! c = Some (cur ++ e)).
        { destruct (decide (a = c)) as [->|Hac].
          - rewrite lookup_insert_eq. exists ext. congruence.
          - rewrite lookup_insert_ne by assumption. exists []. rewrite app_nil_r. assumption. }
        destruct Hc' as [e Hc']. exists (cur ++ e), (VDict a).
        split; [assumption|]. split; [apply dict_get_app_Some; assumption|].
        split; [intros es0 H0 H0'; congruence|].
        intros a' [= <-]. exists (fill_missing items ea).
        split; [apply lookup_insert_eq|apply fill_missing_covers].
    + exists h. split; [|split; [|split]].
      * unfold merge_entry. rewrite Hc, Hk. destruct w; try reflexivity. discriminate.
      * apply grows_with_refl.
      * reflexivity.
      * exists cur, w. split; [assumption|]. split; [assumption|].
        split; [intros es0 H0 H0'; congruence|].
        intros a ->. discriminate.
  - exists (<[c := cur ++ [(key, VDict sub)]]> h). split; [|split; [|split]].
    + apply merge_entry_absent; assumption.
    + apply grows_with_insert; [assumption|].
      intros k Hin. simpl in Hin. apply list_elem_of_singleton in Hin. subst. left.
    + intros b Hb _. apply lookup_insert_ne. congruence.
    + exists (cur ++ [(key, VDict sub)]), (VDict sub).
      split; [apply lookup_insert_eq|].
      split; [rewrite dict_get_app, Hk; simpl; rewrite String.eqb_refl; reflexivity|].
      split; [reflexivity|].
      intros a [= <-]. destruct (decide (c = sub)) as [->|Hne].
      * rewrite lookup_insert_eq. eexists. split; [reflexivity|].
        apply covers_app. replace cur with items by congruence. apply covers_self.
      * rewrite lookup_insert_ne by assumption. exists items.
        split; [assumption|apply covers_self].
Qed.

Lemma merge_entry_leaf rec c key v h cur :
  is_dict v = false -> h !! c = Some cur ->
  exists h',
    merge_entry rec c key v h = Ok h' /\
    grows_with [key] h h' /\
    (forall b, b <> c -> h' !! b = h !! b) /\
    exists es', h' !! c = Some es' /\ is_Some (dict_get key es').
Proof.
  intros Hv Hc. destruct (dict_get key cur) as [w|] eqn:Hk.
  - exists h. split; [eapply merge_entry_scalar; eassumption|].
    split; [apply grows_with_refl|]. split; [reflexivity|].
    exists cur. split; [assumption|]. rewrite Hk. eauto.
  - exists (<[c := cur ++ [(key, v)]]> h).
    split; [apply merge_entry_absent; assumption|].
    split; [|split].
    + apply grows_with_insert; [assumption|].
      intros k Hin. simpl in Hin. assumption.
    + intros b Hb. apply lookup_insert_ne. congruence.
    + exists (cur ++ [(key, v)]). split; [apply lookup_insert_eq|].
      rewrite dict_get_app, Hk. simpl. rewrite String.eqb_refl. eauto.
Qed.

Lemma merge_items_cons rec d c dd k v rest h :
  h !! d = Some dd ->
  merge_items rec d c (length dd) ((k, v) :: rest) h =
  match merge_entry rec c k v h with
  | Ok h' => merge_items rec d c (length dd) rest h'
  | Raise e => Raise e
  end.
Proof. intros Hd. simpl. rewrite Hd, Nat.eqb_refl. reflexivity. Qed.

Lemma merge_items_nil rec d c dd h :
  h !! d = Some dd -> merge_items rec d c (length dd) [] h = Ok h.
Proof. intros Hd. simpl. rewrite Hd, Nat.eqb_refl. reflexivity. Qed.

Lemma merge_config_S n d c h items :
  h !! d = Some items ->
  merge_config (S n) d c h =
  merge_items (merge_config n) d c (length items) items h.
Proof. intros Hd. simpl. rewrite Hd. reflexivity. Qed.

Lemma flat_app_items : flat app_items.
Proof.
  intros k v H. unfold app_items in H.
  repeat (apply elem_of_cons in H as [[= -> ->]|H]; [reflexivity|]). inversion H.
Qed.

Lemma flat_system_items : flat system_items.
Proof.
  intros k v H. unfold system_items in H.
  repeat (apply elem_of_cons in H as [[= -> ->]|H]; [reflexivity|]). inversion H.
Qed.

Lemma dict_get_grown key es ext (ks : list string) :
  (forall k, k ∈ ext.*1 -> k ∈ ks) -> key ∉ ks ->
  dict_get key (es ++ ext) = dict_get key es.
Proof.
  intros Hext Hkey. rewrite dict_get_app.
  destruct (dict_get key es); [reflexivity|].
  apply dict_get_None_keys. intros Hin. apply Hkey. auto.
Qed.

(** ** Merging [DEFAULT_CONFIG] into a loaded configuration *)

Lemma default_addr_cases (b : addr) :
  b ∈ default_addrs ->
  b = DEFAULT_CONFIG \/ b = DEFAULT_app \/ b = DEFAULT_system.
Proof.
  unfold default_addrs. intros H.
  repeat (apply elem_of_cons in H as [->|H]; [tauto|]). inversion H.
Qed.

Lemma has_default_frame h h' :
  has_default h ->
  (forall b, b ∈ default_addrs -> h' !! b = h !! b) ->
  has_default h'.
Proof.
  intros (H1 & H2 & H3) Hf. unfold has_default, default_addrs in *.
  rewrite !Hf by (repeat constructor). auto.
Qed.

Lemma merge_default_spec n h c :
  has_default h -> loaded_config h c ->
  exists h',
    merge_config (S (S n)) DEFAULT_CONFIG c h = Ok h' /\
    has_default h' /\ heap_le h h' /\
    filled h h' c "app" DEFAULT_app app_items /\
    filled h h' c "system" DEFAULT_system system_items /\
    exists es', h' !! c = Some es' /\ is_Some (dict_get "packages" es').
Proof.
  intros Hdef (Hc & es & Hes & Hch).
  pose proof Hdef as (H1 & H2 & H3).
  (* item "app" *)
  destruct (merge_entry_sub n c "app" DEFAULT_app app_items h es H2
              flat_app_items Hes) as (h1 & E1 & G1 & F1 & Fl1).
  { intros a Ha. destruct (Hch _ _ Ha) as [Hna Hsome]. split; [|assumption].
    intros ->. apply Hna. unfold default_addrs. repeat constructor. }
  assert (Hdef1 : has_default h1).
  { apply (has_default_frame h); [assumption|]. intros b Hb. apply F1.
    - intros ->. contradiction.
    - intros Hk. destruct (Hch _ _ Hk). contradiction. }
  destruct (G1 _ _ Hes) as (ext1 & Hc1 & Hext1).
  assert (Hsys1 : dict_get "system" (es ++ ext1) = dict_get "system" es).
  { eapply dict_get_grown; [exact Hext1|]. simpl. intros Hin.
    repeat (apply elem_of_cons in Hin as [Hin|Hin]; [discriminate|]). inversion Hin. }
  (* item "system" *)
  destruct Hdef1 as (H11 & H12 & H13).
  destruct (merge_entry_sub n c "system" DEFAULT_system system_items h1 _ H13
              flat_system_items Hc1) as (h2 & E2 & G2 & F2 & Fl2).
  { intros a Ha. rewrite Hsys1 in Ha. destruct (Hch _ _ Ha) as [Hna [ea Hea]].
    split.
    - intros ->. apply Hna. unfold default_addrs. repeat constructor.
    - destruct (G1 _ _ Hea) as (e & -> & _). eauto. }
  assert (Hdef2 : has_default h2).
  { apply (has_default_frame h1); [repeat split; assumption|].
    intros b Hb. apply F2.
    - intros ->. contradiction.
    - rewrite Hsys1. intros Hk. destruct (Hch _ _ Hk). contradiction. }
  destruct (G2 _ _ Hc1) as (ext2 & Hc2 & Hext2).
  (* item "packages" *)
  destruct (merge_entry_leaf (merge_config (S n)) c "packages"
              (VList [VStr "git"; VStr "curl"; VStr "htop"]) h2 _ eq_refl Hc2)
    as (h3 & E3 & G3 & F3 & es3 & Hc3 & Hp3).
  assert (Hdef3 : has_default h3).
  { apply (has_default_frame h2); [assumption|].
    intros b Hb. apply F3. intros ->. contradiction. }
  exists h3.
  assert (Hle1 : heap_le h h1) by (eapply grows_with_le; eassumption).
  assert (Hle2 : heap_le h1 h2) by (eapply grows_with_le; eassumption).
  assert (Hle3 : heap_le h2 h3) by (eapply grows_with_le; eassumption).
  split; [|split; [assumption|split; [|split; [|split]]]].
  - rewrite (merge_config_S _ _ _ _ _ H1). unfold default_items at 2.
    rewrite (merge_items_cons _ _ _ _ _ _ _ _ H1), E1.
    rewrite (merge_items_cons _ _ _ _ _ _ _ _ H11), E2.
    destruct Hdef2 as (H21 & _).
    rewrite (merge_items_cons _ _ _ _ _ _ _ _ H21), E3.
    destruct Hdef3 as (H31 & _).
    apply (merge_items_nil _ _ _ _ _ H31).
  - eapply heap_le_trans; [exact Hle1|]. eapply heap_le_trans; eassumption.
  - eapply filled_le; [exact Fl1|]. eapply heap_le_trans; eassumption.
  - apply (filled_le h h2); [|assumption].
    destruct Fl2 as (es2 & w & Hes2 & Hk2 & H02 & Hsub2).
    exists es2, w. split; [assumption|]. split; [assumption|]. split; [|assumption].
    intros es0 Hes0 Hnone. apply (H02 _ Hc1). rewrite Hsys1. congruence.
  - eauto.
Qed.

Lemma merge_entry_covered n c key sub items h cur w :
  h !! c = Some cur -> dict_get key cur = Some w ->
  h !! sub = Some items -> flat items ->
  (forall a, w = VDict a -> exists ea, h !! a = Some ea /\ covers items ea) ->
  merge_entry (merge_config (S n)) c key (VDict sub) h = Ok h.
Proof.
  intros Hc Hk Hsub Hflat Hw. unfold merge_entry. rewrite Hc, Hk.
  destruct w as [| | | | |a]; try reflexivity.
  destruct (Hw a eq_refl) as (ea & Hea & Hcov).
  eapply merge_config_covered; eassumption.
Qed.

(** A configuration that already binds every key of the default is left
    as it is, whatever it shares with the default. *)
Lemma merge_default_covered n h0 h c :
  has_default h ->
  filled h0 h c "app" DEFAULT_app app_items ->
  filled h0 h c "system" DEFAULT_system system_items ->
  (exists es, h !! c = Some es /\ is_Some (dict_get "packages" es)) ->
  merge_config (S (S n)) DEFAULT_CONFIG c h = Ok h.
Proof.
  intros (H1 & H2 & H3) (es & w1 & Hc & Hk1 & _ & Hw1)
         (es' & w2 & Hc' & Hk2 & _ & Hw2) (es'' & Hc'' & [w3 Hk3]).
  assert (es' = es) by congruence. assert (es'' = es) by congruence. subst.
  rewrite (merge_config_S _ _ _ _ _ H1). unfold default_items at 2.
  rewrite (merge_items_cons _ _ _ _ _ _ _ _ H1).
  rewrite (merge_entry_covered n c "app" _ app_items h es w1 Hc Hk1 H2
             flat_app_items Hw1).
  rewrite (merge_items_cons _ _ _ _ _ _ _ _ H1).
  rewrite (merge_entry_covered n c "system" _ system_items h es w2 Hc Hk2 H3
             flat_system_items Hw2).
  rewrite (merge_items_cons _ _ _ _ _ _ _ _ H1).
  erewrite merge_entry_scalar; [|reflexivity|exact Hc|exact Hk3].
  apply (merge_items_nil _ _ _ _ _ H1).
Qed.

Lemma filled_nested h h' c key sub items k2 :
  filled h h' c key sub items -> heap_le h h' -> is_Some (h !! c) ->
  (forall v, path_get h (VDict c) [key] = Some v -> is_dict v = true) ->
  k2 ∈ items.*1 ->
  is_Some (path_get h' (VDict c) [key; k2]).
Proof.
  intros (es' & w & Hc' & Hk' & H0 & Hsub) Hle [es Hc] Hpre Hk2.
  assert (Hw : is_dict w = true).
  { destruct (dict_get key es) as [v|] eqn:Hk.
    - destruct (Hle _ _ Hc) as [ext Hc2].
      assert (w = v).
      { rewrite Hc' in Hc2. injection Hc2 as ->.
        rewrite (dict_get_app_Some _ _ _ _ Hk) in Hk'. congruence. }
      subst w. apply Hpre. simpl. rewrite Hc, Hk. reflexivity.
    - rewrite (H0 _ Hc Hk). reflexivity. }
  destruct w as [| | | | |a]; try discriminate.
  destruct (Hsub a eq_refl) as (ea & Hea & Hcov).
  simpl. rewrite Hc', Hk', Hea. destruct (Hcov _ Hk2) as [u ->]. eauto.
Qed.

(** ** Claims about the merge of [DEFAULT_CONFIG] *)

Lemma module_heap_default : has_default module_heap.
Proof. repeat split. Qed.

Lemma user_heap_default : has_default user_heap.
Proof. repeat split. Qed.

Lemma not_default_addr (a : addr) :
  (3 < a)%positive -> a ∉ default_addrs.
Proof.
  intros Ha Hin. apply default_addr_cases in Hin.
  unfold DEFAULT_CONFIG, DEFAULT_app, DEFAULT_system in Hin. lia.
Qed.

Lemma user_heap_loaded : loaded_config user_heap 10%positive.
Proof.
  split; [apply not_default_addr; reflexivity|].
  exists [("app", VStr "myapp")]. split; [reflexivity|].
  intros k a. simpl. destruct (String.eqb k "app"); discriminate.
Qed.

(** C1, as stated: every key path of the default schema would be present in
    the merged configuration.  For the stored configuration [app: myapp] the
    merge returns, the default has the path [app.name], and the merged
    configuration has not: [app] stays bound to the string. *)
Lemma merge_completeness_counterexample :
  loaded_config user_heap 10%positive /\
  exists h',
    merge_config 2 DEFAULT_CONFIG 10%positive user_heap = Ok h' /\
    path_get user_heap (VDict DEFAULT_CONFIG) ["app"; "name"] = Some (VStr "AutoIsys") /\
    path_get h' (VDict 10%positive) ["app"] = Some (VStr "myapp") /\
    path_get h' (VDict 10%positive) ["app"; "name"] = None.
Proof.
  split; [exact user_heap_loaded|].
  eexists. split; [vm_compute; reflexivity|].
  split; [reflexivity|]. split; reflexivity.
Qed.

(** The key paths of the default schema are present once its items have
    been filled in, except below a value that is not a mapping. *)
Lemma filled_paths h h' c p :
  has_default h -> is_Some (h !! c) -> heap_le h h' ->
  filled h h' c "app" DEFAULT_app app_items ->
  filled h h' c "system" DEFAULT_system system_items ->
  (exists es', h' !! c = Some es' /\ is_Some (dict_get "packages" es')) ->
  is_Some (path_get h (VDict DEFAULT_CONFIG) p) ->
  (forall q r v, p = q ++ r -> r <> [] ->
     path_get h (VDict c) q = Some v -> is_dict v = true) ->
  is_Some (path_get h' (VDict c) p).
Proof.
  intros (H1 & H2 & H3) Hc Hle Fapp Fsys (es' & Hc' & Hpk) Hp Hpre.
  destruct p as [|k p]; [simpl; eauto|].
  simpl in Hp. rewrite H1 in Hp. unfold default_items in Hp. simpl in Hp.
  destruct (String.eqb_spec k "app") as [->|_].
  { destruct p as [|k2 p].
    - destruct Fapp as (es1 & w & He & Hk & _). simpl. rewrite He, Hk. eauto.
    - simpl in Hp. rewrite H2 in Hp.
      destruct (dict_get k2 app_items) as [u|] eqn:Hk2; [|destruct Hp; discriminate].
      assert (p = []) as ->.
      { destruct p; [reflexivity|]. unfold app_items in Hk2. simpl in Hk2.
        repeat (destruct (String.eqb k2 _);
                [injection Hk2 as <-; destruct Hp; discriminate|]).
        discriminate. }
      apply (filled_nested h h' c "app" DEFAULT_app app_items); try assumption.
      + intros v Hv. apply (Hpre ["app"] [k2] v); [reflexivity|discriminate|assumption].
      + eapply dict_get_Some_keys; eassumption. }
  destruct (String.eqb_spec k "system") as [->|_].
  { destruct p as [|k2 p].
    - destruct Fsys as (es1 & w & He & Hk & _). simpl. rewrite He, Hk. eauto.
    - simpl in Hp. rewrite H3 in Hp.
      destruct (dict_get k2 system_items) as [u|] eqn:Hk2; [|destruct Hp; discriminate].
      assert (p = []) as ->.
      { destruct p; [reflexivity|]. unfold system_items in Hk2. simpl in Hk2.
        repeat (destruct (String.eqb k2 _);
                [injection Hk2 as <-; destruct Hp; discriminate|]).
        discriminate. }
      apply (filled_nested h h' c "system" DEFAULT_system system_items); try assumption.
      + intros v Hv. apply (Hpre ["system"] [k2] v); [reflexivity|discriminate|assumption].
      + eapply dict_get_Some_keys; eassumption. }
  destruct (String.eqb_spec k "packages") as [->|_].
  { destruct p as [|k2 p]; [|destruct Hp; discriminate].
    simpl. rewrite Hc'. destruct Hpk as [w ->]. eauto. }
  destruct Hp; discriminate.
Qed.

(** C1, amended: merging [DEFAULT_CONFIG] into a loaded configuration
    returns, and every key path of the default schema is present in the
    merged configuration unless a proper prefix of that path was bound in
    the configuration to a value that is not a mapping. *)
Theorem merge_completeness fuel h c :
  (2 <= fuel)%nat -> has_default h -> loaded_config h c ->
  exists h',
    merge_config fuel DEFAULT_CONFIG c h = Ok h' /\
    forall p,
      is_Some (path_get h (VDict DEFAULT_CONFIG) p) ->
      (forall q r v, p = q ++ r -> r <> [] ->
         path_get h (VDict c) q = Some v -> is_dict v = true) ->
      is_Some (path_get h' (VDict c) p).
Proof.
  intros Hfuel Hdef Hload.
  destruct fuel as [|[|n]]; [lia|lia|].
  destruct (merge_default_spec n h c Hdef Hload)
    as (h' & E & _ & Hle & Fapp & Fsys & Hpk).
  exists h'. split; [assumption|].
  assert (Hc : is_Some (h !! c)) by (destruct Hload as (_ & es & ? & _); eauto).
  intros p Hp Hpre. eapply filled_paths; eassumption.
Qed.

Lemma merge_completeness_witness :
  (2 <= 2)%nat /\ has_default user_heap /\ loaded_config user_heap 10%positive /\
  exists h',
    merge_config 2 DEFAULT_CONFIG 10%positive user_heap = Ok h' /\
    forall p,
      is_Some (path_get user_heap (VDict DEFAULT_CONFIG) p) ->
      (forall q r v, p = q ++ r -> r <> [] ->
         path_get user_heap (VDict 10%positive) q = Some v -> is_dict v = true) ->
      is_Some (path_get h' (VDict 10%positive) p).
Proof.
  split; [lia|]. split; [exact user_heap_default|].
  split; [exact user_heap_loaded|].
  apply (merge_completeness 2 user_heap 10%positive);
    [lia|exact user_heap_default|exact user_heap_loaded].
Defined.

(** C2: merging [DEFAULT_CONFIG] into a loaded configuration returns, and
    every key path that was bound in the configuration to a value that is
    not a mapping is bound to that same value afterwards. *)
Theorem merge_non_destructive fuel h c :
  (2 <= fuel)%nat -> has_default h -> loaded_config h c ->
  exists h',
    merge_config fuel DEFAULT_CONFIG c h = Ok h' /\
    forall p v,
      path_get h (VDict c) p = Some v -> is_dict v = false ->
      path_get h' (VDict c) p = Some v.
Proof.
  intros Hfuel Hdef Hload.
  destruct fuel as [|[|n]]; [lia|lia|].
  destruct (merge_default_spec n h c Hdef Hload) as (h' & E & _ & Hle & _).
  exists h'. split; [assumption|].
  intros p v Hp _. eapply path_get_le; eassumption.
Qed.

Lemma merge_non_destructive_witness :
  (2 <= 2)%nat /\ has_default user_heap /\ loaded_config user_heap 10%positive /\
  exists h',
    merge_config 2 DEFAULT_CONFIG 10%positive user_heap = Ok h' /\
    forall p v,
      path_get user_heap (VDict 10%positive) p = Some v -> is_dict v = false ->
      path_get h' (VDict 10%positive) p = Some v.
Proof.
  split; [lia|]. split; [exact user_heap_default|].
  split; [exact user_heap_loaded|].
  apply (merge_non_destructive 2 user_heap 10%positive);
    [lia|exact user_heap_default|exact user_heap_loaded].
Defined.

(** C3: merging [DEFAULT_CONFIG] into a loaded configuration returns, and
    merging it again into the result returns and leaves the store, hence the
    configuration, exactly as the first merge left it. *)
Theorem merge_idempotent fuel h c :
  (2 <= fuel)%nat -> has_default h -> loaded_config h c ->
  exists h1,
    merge_config fuel DEFAULT_CONFIG c h = Ok h1 /\
    merge_config fuel DEFAULT_CONFIG c h1 = Ok h1.
Proof.
  intros Hfuel Hdef Hload.
  destruct fuel as [|[|n]]; [lia|lia|].
  destruct (merge_default_spec n h c Hdef Hload)
    as (h1 & E & Hdef1 & _ & Fapp & Fsys & Hpk).
  exists h1. split; [assumption|].
  eapply merge_default_covered; eassumption.
Qed.

Lemma merge_idempotent_witness :
  (2 <= 2)%nat /\ has_default user_heap /\ loaded_config user_heap 10%positive /\
  exists h1,
    merge_config 2 DEFAULT_CONFIG 10%positive user_heap = Ok h1 /\
    merge_config 2 DEFAULT_CONFIG 10%positive h1 = Ok h1.
Proof.
  split; [lia|]. split; [exact user_heap_default|].
  split; [exact user_heap_loaded|].
  apply (merge_idempotent 2 user_heap 10%positive);
    [lia|exact user_heap_default|exact user_heap_loaded].
Defined.

(** ** Paths and reachability *)

Lemma path_get_scalar h v p :
  is_dict v = false ->
  path_get h v p = match p with [] => Some v | _ :: _ => None end.
Proof. intros Hv. destruct p; [reflexivity|]. destruct v; try reflexivity. discriminate. Qed.

Lemma path_get_cons h a k p es w :
  h !! a = Some es -> dict_get k es = Some w ->
  path_get h (VDict a) (k :: p) = path_get h w p.
Proof. intros Ha Hk. simpl. rewrite Ha, Hk. reflexivity. Qed.

Lemma reach_refl h a : reach h a a.
Proof. exists []. reflexivity. Qed.

Lemma reach_child h a k es b x :
  h !! a = Some es -> dict_get k es = Some (VDict b) ->
  reach h b x -> reach h a x.
Proof.
  intros Ha Hk [p Hp]. exists (k :: p).
  rewrite (path_get_cons _ _ _ _ _ _ Ha Hk). assumption.
Qed.

Lemma path_get_frame h hi p :
  forall v,
    (forall b a, v = VDict b -> reach h b a -> hi !! a = h !! a) ->
    path_get hi v p = path_get h v p.
Proof.
  induction p as [|k p IH]; intros v Hv; simpl; [reflexivity|].
  destruct v as [| | | | |a0]; try reflexivity.
  rewrite (Hv a0 a0 eq_refl (reach_refl h a0)).
  destruct (h !! a0) as [es|] eqn:Ha; [|reflexivity].
  destruct (dict_get k es) as [w|] eqn:Hk; [|reflexivity].
  apply IH. intros b x -> Hr. apply (Hv a0 x eq_refl).
  eapply reach_child; eassumption.
Qed.

Lemma reach_frame h hi b x :
  (forall a, reach h b a -> hi !! a = h !! a) ->
  reach hi b x <-> reach h b x.
Proof.
  intros Hf. unfold reach. split; intros [p Hp]; exists p.
  - rewrite <- Hp. symmetry. apply path_get_frame. intros ? ? [= <-]. apply Hf.
  - rewrite <- Hp. apply path_get_frame. intros ? ? [= <-]. apply Hf.
Qed.

Lemma tree_not_root h c k es b :
  tree_shaped h c -> h !! c = Some es -> dict_get k es = Some (VDict b) ->
  ~ reach h b c.
Proof.
  intros Ht Hc Hk [p Hp].
  assert (E : k :: p = []); [|discriminate].
  apply (Ht _ _ c); [|reflexivity].
  rewrite (path_get_cons _ _ _ _ _ _ Hc Hk). assumption.
Qed.

Lemma tree_child h c k es b :
  tree_shaped h c -> h !! c = Some es -> dict_get k es = Some (VDict b) ->
  tree_shaped h b.
Proof.
  intros Ht Hc Hk p q x Hp Hq.
  assert (E : k :: p = k :: q); [|congruence].
  apply (Ht _ _ x); rewrite (path_get_cons _ _ _ _ _ _ Hc Hk); assumption.
Qed.

Lemma tree_siblings h c k k' es b b' x :
  tree_shaped h c -> h !! c = Some es ->
  dict_get k es = Some (VDict b) -> dict_get k' es = Some (VDict b') ->
  k <> k' -> reach h b x -> ~ reach h b' x.
Proof.
  intros Ht Hc Hk Hk' Hne [p Hp] [q Hq].
  assert (E : k :: p = k' :: q); [|congruence].
  apply (Ht _ _ x).
  - rewrite (path_get_cons _ _ _ _ _ _ Hc Hk). assumption.
  - rewrite (path_get_cons _ _ _ _ _ _ Hc Hk'). assumption.
Qed.

Lemma dict_get_of_elem (es : dict) k v :
  NoDup es.*1 -> (k, v) ∈ es -> dict_get k es = Some v.
Proof.
  induction es as [|[k' v'] es IH]; intros Hnd Hin; [inversion Hin|].
  simpl in Hnd. apply NoDup_cons in Hnd as [Hk' Hnd]. simpl.
  apply elem_of_cons in Hin as [[= -> ->]|Hin].
  - rewrite String.eqb_refl. reflexivity.
  - destruct (String.eqb_spec k k') as [->|_]; [|auto].
    exfalso. apply Hk'. apply (list_elem_of_fmap_2 fst) in Hin. exact Hin.
Qed.

Lemma heap_wf_insert_snoc h c cur k v :
  heap_wf h -> h !! c = Some cur -> dict_get k cur = None ->
  heap_wf (<[c := cur ++ [(k, v)]]> h).
Proof.
  intros Hwf Hc Hk a es Ha. destruct (decide (c = a)) as [->|Hne].
  - rewrite lookup_insert_eq in Ha. injection Ha as <-.
    apply dict_keys_snoc_NoDup; [eapply Hwf; eassumption|assumption].
  - rewrite lookup_insert_ne in Ha by assumption. eapply Hwf; eassumption.
Qed.

Lemma heap_closed_insert_snoc h c cur k v :
  heap_closed h -> h !! c = Some cur ->
  (forall b, v = VDict b -> is_Some (h !! b)) ->
  heap_closed (<[c := cur ++ [(k, v)]]> h).
Proof.
  intros Hcl Hc Hv a es k' b Ha Hk'.
  assert (Hb : is_Some (h !! b)).
  { destruct (decide (c = a)) as [->|Hne].
    - rewrite lookup_insert_eq in Ha. injection Ha as <-.
      rewrite dict_get_app in Hk'. destruct (dict_get k' cur) as [w|] eqn:E.
      + injection Hk' as ->. eapply Hcl; eassumption.
      + simpl in Hk'. destruct (String.eqb k' k); [|discriminate].
        injection Hk' as ->. apply Hv. reflexivity.
    - rewrite lookup_insert_ne in Ha by assumption. eapply Hcl; eassumption. }
  destruct (decide (c = b)) as [->|Hne].
  - rewrite lookup_insert_eq. eauto.
  - rewrite lookup_insert_ne by assumption. assumption.
Qed.

Lemma heap_le_is_Some h h' a : heap_le h h' -> is_Some (h !! a) -> is_Some (h' !! a).
Proof. intros Hle [es Ha]. destruct (Hle _ _ Ha) as [ext ->]. eauto. Qed.

(** ** Merging into a tree-shaped configuration that shares nothing with
    the default *)

Section separate_merge.
Variable n : nat.
Hypothesis IH : forall d c h,
  heap_wf h -> heap_closed h -> is_Some (h !! d) -> is_Some (h !! c) ->
  tree_shaped h c -> separate h d c -> depth_below n h d ->
  exists h',
    merge_config n d c h = Ok h' /\ heap_wf h' /\ heap_closed h' /\
    heap_le h h' /\ forall a, ~ reach h c a -> h' !! a = h !! a.

Variables (h : heap) (d c : addr) (items es_c : dict).
Hypothesis Hwf : heap_wf h.
Hypothesis Hcl : heap_closed h.
Hypothesis Hd : h !! d = Some items.
Hypothesis Hc : h !! c = Some es_c.
Hypothesis Htree : tree_shaped h c.
Hypothesis Hsep : separate h d c.
Hypothesis Hdepth : depth_below (S n) h d.

Lemma loop_inv_weaken hi done more :
  loop_inv h c es_c hi done -> loop_inv h c es_c hi (done ++ more).
Proof.
  intros (Hwfi & Hcli & Hlei & Hfr & (ext & Hci & Hext) & Hsub).
  repeat (split; [assumption|]). split.
  - exists ext. split; [assumption|]. intros k Hk.
    rewrite fmap_app. apply elem_of_app. left. auto.
  - intros k b Hk Hnot. apply (Hsub k b Hk). intros Hin. apply Hnot.
    rewrite fmap_app. apply elem_of_app. left. assumption.
Qed.

Lemma loop_step hi done k v rest :
  items = done ++ (k, v) :: rest ->
  loop_inv h c es_c hi done ->
  exists h1,
    merge_entry (merge_config n) c k v hi = Ok h1 /\
    loop_inv h c es_c h1 (done ++ [(k, v)]).
Proof.
  intros Hitems Hinv.
  pose proof Hinv as (Hwfi & Hcli & Hlei & Hfr & (ext & Hci & Hext) & Hsub).
  assert (Hnd : NoDup items.*1) by (eapply Hwf; eassumption).
  assert (Hkdone : k ∉ done.*1).
  { rewrite Hitems, fmap_app in Hnd. apply NoDup_app in Hnd as (_ & Hdisj & _).
    intros Hin. apply (Hdisj k Hin). simpl. left. }
  assert (Hkv : dict_get k items = Some v).
  { apply dict_get_of_elem; [assumption|]. rewrite Hitems.
    apply elem_of_app. right. left. }
  assert (Hget : dict_get k (es_c ++ ext) = dict_get k es_c)
    by (eapply dict_get_grown; eassumption).
  destruct (dict_get k es_c) as [cv|] eqn:Hk.
  - destruct (is_dict v && is_dict cv) eqn:Hboth.
    + destruct v as [| | | | |dv]; try discriminate.
      destruct cv as [| | | | |b]; try discriminate.
      assert (Hfb : forall a, reach h b a -> hi !! a = h !! a)
        by (apply (Hsub k b); assumption).
      assert (Hfd : forall a, reach h dv a -> hi !! a = h !! a).
      { intros a Ha. apply Hfr. apply Hsep. eapply reach_child; eassumption. }
      destruct (IH dv b hi) as (h1 & E & Hwf1 & Hcl1 & Hle1 & Hfr1);
        try assumption.
      * apply (heap_le_is_Some h); [assumption|]. exact (Hcl d items k dv Hd Hkv).
      * apply (heap_le_is_Some h); [assumption|]. exact (Hcl c es_c k b Hc Hk).
      * intros p q x Hp Hq.
        rewrite (path_get_frame h hi) in Hp by (intros ? ? [= <-]; apply Hfb).
        rewrite (path_get_frame h hi) in Hq by (intros ? ? [= <-]; apply Hfb).
        eapply tree_child; eassumption.
      * intros a Ha Hb.
        apply (proj1 (reach_frame h hi _ _ Hfd)) in Ha.
        apply (proj1 (reach_frame h hi _ _ Hfb)) in Hb.
        apply (Hsep a); eapply reach_child; eassumption.
      * intros p a Hp.
        rewrite (path_get_frame h hi) in Hp by (intros ? ? [= <-]; apply Hfd).
        assert (Hlen : (length (k :: p) < S n)%nat).
        { apply (Hdepth _ a). rewrite (path_get_cons _ _ _ _ _ _ Hd Hkv). assumption. }
        simpl in Hlen. lia.
      * exists h1. split.
        { unfold merge_entry. rewrite Hci, Hget. exact E. }
        assert (Hnb : forall a, ~ reach h b a -> h1 !! a = hi !! a).
        { intros a Ha. apply Hfr1. intros Hr. apply Ha.
          apply (proj1 (reach_frame h hi _ _ Hfb)) in Hr. assumption. }
        split; [assumption|]. split; [assumption|].
        split; [eapply heap_le_trans; eassumption|]. split; [|split].
        -- intros a Ha. rewrite Hnb; [apply Hfr; assumption|].
           intros Hr. apply Ha. eapply reach_child; eassumption.
        -- exists ext. split.
           ++ rewrite Hnb; [assumption|]. eapply tree_not_root; eassumption.
           ++ intros k' Hk'. rewrite fmap_app. apply elem_of_app. left. auto.
        -- intros k' b' Hk' Hnot a Ha.
           assert (Hne : k' <> k).
           { intros ->. apply Hnot. rewrite fmap_app. apply elem_of_app.
             right. left. }
           rewrite Hnb.
           ++ apply (Hsub k' b'); [assumption| |assumption].
              intros Hin. apply Hnot. rewrite fmap_app. apply elem_of_app.
              left. assumption.
           ++ intros Hr.
              apply (tree_siblings h c k' k es_c b' b a Htree Hc Hk' Hk Hne Ha Hr).
    + exists hi. split.
      * unfold merge_entry. rewrite Hci, Hget.
        destruct v, cv; try reflexivity; discriminate.
      * apply loop_inv_weaken. assumption.
  - exists (<[c := (es_c ++ ext) ++ [(k, v)]]> hi). split.
    + apply merge_entry_absent; assumption.
    + assert (Hnc : forall a, a <> c ->
                <[c := (es_c ++ ext) ++ [(k, v)]]> hi !! a = hi !! a).
      { intros a Ha. apply lookup_insert_ne. congruence. }
      split; [apply heap_wf_insert_snoc; assumption|].
      split.
      { apply heap_closed_insert_snoc; [assumption..|].
        intros b ->. apply (heap_le_is_Some h); [assumption|].
        exact (Hcl d items k b Hd Hkv). }
      split.
      { eapply heap_le_trans; [exact Hlei|].
        apply heap_le_insert_snoc. assumption. }
      split; [|split].
      * intros a Ha. rewrite Hnc; [apply Hfr; assumption|].
        intros ->. apply Ha. apply reach_refl.
      * exists (ext ++ [(k, v)]). split.
        -- rewrite lookup_insert_eq, app_assoc. reflexivity.
        -- intros k' Hk'. rewrite fmap_app in Hk'. rewrite fmap_app.
           apply elem_of_app in Hk' as [Hk'|Hk'].
           ++ apply elem_of_app. left. auto.
           ++ apply elem_of_app. right. assumption.
      * intros k' b' Hk' Hnot a Ha. rewrite Hnc.
        -- apply (Hsub k' b'); [assumption| |assumption].
           intros Hin. apply Hnot. rewrite fmap_app. apply elem_of_app.
           left. assumption.
        -- intros ->. eapply tree_not_root; eassumption.
Qed.

Lemma loop_all rest :
  forall done hi,
    items = done ++ rest ->
    loop_inv h c es_c hi done ->
    exists h',
      merge_items (merge_config n) d c (length items) rest hi = Ok h' /\
      loop_inv h c es_c h' items.
Proof.
  induction rest as [|[k v] rest IHr]; intros done hi Hitems Hinv.
  - rewrite app_nil_r in Hitems. subst done. exists hi. split; [|assumption].
    apply merge_items_nil.
    destruct Hinv as (_ & _ & _ & Hfr & _). rewrite Hfr; [assumption|].
    apply Hsep. apply reach_refl.
  - assert (Hdi : hi !! d = Some items).
    { destruct Hinv as (_ & _ & _ & Hfr & _). rewrite Hfr; [assumption|].
      apply Hsep. apply reach_refl. }
    rewrite (merge_items_cons _ _ _ _ _ _ _ _ Hdi).
    destruct (loop_step hi done k v rest Hitems Hinv) as (h1 & E & Hinv1).
    rewrite E. apply (IHr (done ++ [(k, v)])); [|assumption].
    rewrite <- app_assoc. assumption.
Qed.
End separate_merge.

Lemma merge_config_separate fuel :
  forall d c h,
    heap_wf h -> heap_closed h -> is_Some (h !! d) -> is_Some (h !! c) ->
    tree_shaped h c -> separate h d c -> depth_below fuel h d ->
    exists h',
      merge_config fuel d c h = Ok h' /\ heap_wf h' /\ heap_closed h' /\
      heap_le h h' /\ forall a, ~ reach h c a -> h' !! a = h !! a.
Proof.
  induction fuel as [|n IH]; intros d c h Hwf Hcl [items Hd] [es_c Hc] Ht Hs Hdep.
  - specialize (Hdep [] d eq_refl). simpl in Hdep. lia.
  - rewrite (merge_config_S _ _ _ _ _ Hd).
    destruct (loop_all n IH h d c items es_c Hwf Hcl Hd Hc Ht Hs Hdep items [] h)
      as (h' & E & Hwf' & Hcl' & Hle' & Hfr' & _); [reflexivity| |].
    + split; [assumption|]. split; [assumption|]. split; [apply heap_le_refl|].
      split; [reflexivity|]. split.
      * exists []. rewrite app_nil_r. split; [assumption|]. intros k Hk. inversion Hk.
      * reflexivity.
    + exists h'. auto.
Qed.

(** ** Claim about what [merge_config] mutates *)

(** C9, as stated: the default would be the same after the call as before,
    for every pair of mappings.  Here the default and the configuration have
    no dictionary in common, the call returns, and the dictionary bound to
    [x] inside the default's [a] has received the key [q]: the first
    iteration stored that dictionary in the shared one by reference, and the
    second iteration merged the default's [b.x] into it. *)
Lemma merge_frame_counterexample :
  exists h',
    merge_config 3 20%positive 30%positive shared_heap = Ok h' /\
    path_get shared_heap (VDict 20%positive) ["a"; "x"] = Some (VDict 23%positive) /\
    shared_heap !! 23%positive = Some [("p", VInt 1)] /\
    h' !! 23%positive = Some [("p", VInt 1); ("q", VInt 2)] /\
    path_get shared_heap (VDict 20%positive) ["a"; "x"; "q"] = None /\
    path_get h' (VDict 20%positive) ["a"; "x"; "q"] = Some (VInt 2).
Proof.
  eexists. split; [vm_compute; reflexivity|].
  repeat split; reflexivity.
Qed.

(** C9, amended: in a well-formed store, when the configuration is
    tree-shaped and has no dictionary in common with the default, the call
    returns (the nesting depth of the default being below the recursion
    limit), the default and every dictionary nested in it are the same after
    the call as before, and so is every dictionary that is not nested in the
    configuration. *)
Theorem merge_frame fuel d c h :
  heap_wf h -> heap_closed h -> is_Some (h !! d) -> is_Some (h !! c) ->
  tree_shaped h c -> separate h d c -> depth_below fuel h d ->
  exists h',
    merge_config fuel d c h = Ok h' /\
    (forall a, reach h d a -> h' !! a = h !! a) /\
    (forall a, ~ reach h c a -> h' !! a = h !! a).
Proof.
  intros Hwf Hcl Hd Hc Ht Hs Hdep.
  destruct (merge_config_separate fuel d c h Hwf Hcl Hd Hc Ht Hs Hdep)
    as (h' & E & _ & _ & _ & Hfr).
  exists h'. split; [assumption|]. split; [|assumption].
  intros a Ha. apply Hfr. apply Hs. assumption.
Qed.

Lemma plain_heap_cases a es :
  plain_heap !! a = Some es ->
  (a = 20%positive /\ es = [("a", VDict 21%positive); ("n", VInt 7)]) \/
  (a = 21%positive /\ es = [("x", VInt 1)]) \/
  (a = 30%positive /\ es = [("a", VDict 31%positive)]) \/
  (a = 31%positive /\ es = []).
Proof.
  unfold plain_heap. intros H.
  repeat (apply lookup_insert_Some in H as [[<- <-]|[_ H]]; [tauto|]).
  rewrite lookup_empty in H. discriminate.
Qed.

Lemma plain_heap_paths_default p b :
  path_get plain_heap (VDict 20%positive) p = Some (VDict b) ->
  (p = [] /\ b = 20%positive) \/ (p = ["a"] /\ b = 21%positive).
Proof.
  destruct p as [|k p]; [intros [= <-]; tauto|].
  change (match dict_get k [("a", VDict 21%positive); ("n", VInt 7)] with
          | Some w => path_get plain_heap w p | None => None end
          = Some (VDict b) -> (k :: p = [] /\ b = 20%positive) \/
                              (k :: p = ["a"] /\ b = 21%positive)).
  simpl. destruct (String.eqb_spec k "a") as [->|_].
  - destruct p as [|k2 p]; [intros [= <-]; tauto|].
    change (match dict_get k2 [("x", VInt 1)] with
            | Some w => path_get plain_heap w p | None => None end
            = Some (VDict b) -> ("a" :: k2 :: p = [] /\ b = 20%positive) \/
                                ("a" :: k2 :: p = ["a"] /\ b = 21%positive)).
    simpl. destruct (String.eqb k2 "x"); [|discriminate].
    destruct p; discriminate.
  - destruct (String.eqb k "n"); [|discriminate]. destruct p; discriminate.
Qed.

Lemma plain_heap_paths_config p b :
  path_get plain_heap (VDict 30%positive) p = Some (VDict b) ->
  (p = [] /\ b = 30%positive) \/ (p = ["a"] /\ b = 31%positive).
Proof.
  destruct p as [|k p]; [intros [= <-]; tauto|].
  change (match dict_get k [("a", VDict 31%positive)] with
          | Some w => path_get plain_heap w p | None => None end
          = Some (VDict b) -> (k :: p = [] /\ b = 30%positive) \/
                              (k :: p = ["a"] /\ b = 31%positive)).
  simpl. destruct (String.eqb_spec k "a") as [->|_]; [|discriminate].
  destruct p as [|k2 p]; [intros [= <-]; tauto|]. discriminate.
Qed.

Lemma plain_heap_wf : heap_wf plain_heap.
Proof.
  intros a es H.
  destruct (plain_heap_cases a es H) as [[_ ->]|[[_ ->]|[[_ ->]|[_ ->]]]];
    simpl;
    repeat (apply NoDup_cons; split;
            [rewrite ?elem_of_cons, ?elem_of_nil; intuition discriminate|]);
    apply NoDup_nil_2.
Qed.

Lemma plain_heap_closed : heap_closed plain_heap.
Proof.
  intros a es k b H Hk.
  destruct (plain_heap_cases a es H) as [[_ ->]|[[_ ->]|[[_ ->]|[_ ->]]]];
    simpl in Hk;
    repeat match type of Hk with
           | context [String.eqb ?x ?y] => destruct (String.eqb x y)
           end;
    try discriminate; injection Hk as <-; eexists; reflexivity.
Qed.

Lemma plain_heap_tree : tree_shaped plain_heap 30%positive.
Proof.
  intros p q b Hp Hq.
  apply plain_heap_paths_config in Hp as [[-> ->]|[-> ->]];
    apply plain_heap_paths_config in Hq as [[-> Hq]|[-> Hq]];
    try reflexivity; discriminate.
Qed.

Lemma plain_heap_separate : separate plain_heap 20%positive 30%positive.
Proof.
  intros a [p Hp] [q Hq].
  apply plain_heap_paths_default in Hp as [[_ ->]|[_ ->]];
    apply plain_heap_paths_config in Hq as [[_ Hq]|[_ Hq]]; discriminate.
Qed.

Lemma plain_heap_depth : depth_below 2 plain_heap 20%positive.
Proof.
  intros p a Hp.
  apply plain_heap_paths_default in Hp as [[-> _]|[-> _]]; simpl; lia.
Qed.

Lemma merge_frame_witness :
  heap_wf plain_heap /\ heap_closed plain_heap /\
  is_Some (plain_heap !! 20%positive) /\ is_Some (plain_heap !! 30%positive) /\
  tree_shaped plain_heap 30%positive /\
  separate plain_heap 20%positive 30%positive /\
  depth_below 2 plain_heap 20%positive /\
  exists h',
    merge_config 2 20%positive 30%positive plain_heap = Ok h' /\
    (forall a, reach plain_heap 20%positive a -> h' !! a = plain_heap !! a) /\
    (forall a, ~ reach plain_heap 30%positive a -> h' !! a = plain_heap !! a).
Proof.
  split; [exact plain_heap_wf|]. split; [exact plain_heap_closed|].
  split; [eexists; reflexivity|]. split; [eexists; reflexivity|].
  split; [exact plain_heap_tree|]. split; [exact plain_heap_separate|].
  split; [exact plain_heap_depth|].
  apply (merge_frame 2 20%positive 30%positive plain_heap);
    [exact plain_heap_wf|exact plain_heap_closed|eexists; reflexivity
    |eexists; reflexivity|exact plain_heap_tree|exact plain_heap_separate
    |exact plain_heap_depth].
Defined.

(** ** The orchestration *)

Lemma bind_ok {A B} t (a : A) (k : A -> M B) :
  bind (t, Ok a) k = (t ++ (k a).1, (k a).2).
Proof. unfold bind. destruct (k a). reflexivity. Qed.

Lemma bind_raise {A B} t e (k : A -> M B) : bind (t, Raise e) k = (t, Raise e).
Proof. reflexivity. Qed.

Lemma bind_trace {A B} (m : M A) (k : A -> M B) :
  (bind m k).1 = m.1 ++ match m.2 with Ok a => (k a).1 | Raise _ => [] end.
Proof.
  destruct m as [t [a|e]]; simpl.
  - destruct (k a). reflexivity.
  - rewrite app_nil_r. reflexivity.
Qed.

Lemma bind_outcome {A B} (m : M A) (k : A -> M B) :
  (bind m k).2 = match m.2 with Ok a => (k a).2 | Raise e => Raise e end.
Proof. destruct m as [t [a|e]]; simpl; [destruct (k a)|]; reflexivity. Qed.

Lemma runs_app t1 t2 : runs (t1 ++ t2) = runs t1 ++ runs t2.
Proof. unfold runs. apply omap_app. Qed.

Lemma advance_nil env : advance env [] = env.
Proof. destruct env. unfold advance. simpl. rewrite app_nil_r. reflexivity. Qed.

Lemma advance_app env a b : advance (advance env a) b = advance env (a ++ b).
Proof. unfold advance. simpl. rewrite <- app_assoc. reflexivity. Qed.

(** C4: when the reported system is neither Linux nor Darwin, the run
    prints the banner and the line [Unsupported OS], exits with status 1,
    and has started no process: no later step has run. *)
Theorem unsupported_os_aborts env py_repr h config :
  system env <> "Linux" -> system env <> "Darwin" ->
  main env py_repr h config =
    ([Print "==============================================";
      Print "              AutoIsys Utility";
      Print "==============================================";
      Print "Unsupported OS"],
     Raise (SystemExit 1)) /\
  exit_status (main env py_repr h config).2 = 1%Z /\
  runs (main env py_repr h config).1 = [].
Proof.
  intros HL HD.
  assert (E : main env py_repr h config =
    ([Print "==============================================";
      Print "              AutoIsys Utility";
      Print "==============================================";
      Print "Unsupported OS"],
     Raise (SystemExit 1))).
  { unfold main, check_os.
    destruct (String.eqb_spec (system env) "Linux") as [|_]; [contradiction|].
    destruct (String.eqb_spec (system env) "Darwin") as [|_]; [contradiction|].
    reflexivity. }
  rewrite E. repeat split.
Qed.

Lemma unsupported_os_aborts_witness :
  system windows_env <> "Linux" /\ system windows_env <> "Darwin" /\
  main windows_env (fun _ _ => "") module_heap DEFAULT_CONFIG =
    ([Print "==============================================";
      Print "              AutoIsys Utility";
      Print "==============================================";
      Print "Unsupported OS"],
     Raise (SystemExit 1)) /\
  exit_status (main windows_env (fun _ _ => "") module_heap DEFAULT_CONFIG).2 = 1%Z /\
  runs (main windows_env (fun _ _ => "") module_heap DEFAULT_CONFIG).1 = [].
Proof.
  split; [discriminate|]. split; [discriminate|].
  apply (unsupported_os_aborts windows_env (fun _ _ => "") module_heap DEFAULT_CONFIG);
    discriminate.
Defined.

(** ** Dispatch on the package manager *)

(** C5: when the detected package manager has no entry in the dispatch
    table of a step that is switched on, the step prints its warning and
    returns; it starts no process and raises nothing. *)
Theorem unsupported_manager_safe env h config a :
  supports a (detect_package_manager env) = false ->
  dispatches h config a ->
  step env h config a =
    ([Print (unsupported_warning a (detect_package_manager env))], Ok tt) /\
  runs (step env h config a).1 = [].
Proof.
  intros Hsup [(flag & Hflag & Htrue) Hpk].
  assert (E : step env h config a =
    ([Print (unsupported_warning a (detect_package_manager env))], Ok tt)).
  { destruct a; unfold supports in Hsup; apply bool_decide_eq_false in Hsup;
      rewrite <- eq_None_not_Some in Hsup; unfold flag_of in Hflag;
      unfold step, unsupported_warning.
    - unfold auto_update_system, lift. rewrite Hflag. cbn [bind].
      rewrite Htrue. cbn [negb]. rewrite Hsup. reflexivity.
    - unfold install_docker, lift. rewrite Hflag. cbn [bind].
      rewrite Htrue. cbn [negb]. rewrite Hsup. reflexivity.
    - destruct Hpk as (packages & Hpk & Hptrue).
      unfold auto_install_packages, lift. rewrite Hflag. cbn [bind].
      rewrite Htrue. cbn [negb]. rewrite Hpk. cbn [bind].
      rewrite Hptrue. cbn [negb]. rewrite Hsup. reflexivity. }
  rewrite E. split; reflexivity.
Qed.

Lemma unsupported_manager_safe_witness :
  supports InstallPackage (detect_package_manager bare_linux) = false /\
  dispatches module_heap DEFAULT_CONFIG InstallPackage /\
  step bare_linux module_heap DEFAULT_CONFIG InstallPackage =
    ([Print (unsupported_warning InstallPackage
               (detect_package_manager bare_linux))], Ok tt) /\
  runs (step bare_linux module_heap DEFAULT_CONFIG InstallPackage).1 = [].
Proof.
  assert (Hd : dispatches module_heap DEFAULT_CONFIG InstallPackage).
  { split; eexists; split; reflexivity. }
  split; [reflexivity|]. split; [exact Hd|].
  apply (unsupported_manager_safe bare_linux module_heap DEFAULT_CONFIG
           InstallPackage); [reflexivity|exact Hd].
Defined.

(** C10: when the configuration has no [system] mapping, or that mapping
    has no entry for the flag of a step, the step prints that the feature is
    disabled and returns; it starts no process and raises nothing. *)
Theorem missing_flag_disables env h config a :
  flag_absent h config a ->
  step env h config a = ([Print (disabled_message a)], Ok tt) /\
  runs (step env h config a).1 = [].
Proof.
  intros (cfg & Hcfg & Habs).
  assert (Hget : system_get h config (flag_of a) (VBool false) = Ok (VBool false)).
  { unfold system_get, config_section. rewrite Hcfg.
    destruct Habs as [->|(s & sys & -> & -> & Hflag)]; [reflexivity|].
    unfold py_get. rewrite Hflag. reflexivity. }
  assert (E : step env h config a = ([Print (disabled_message a)], Ok tt)).
  { destruct a; unfold flag_of in Hget; unfold step, disabled_message.
    - unfold auto_update_system, lift. rewrite Hget. reflexivity.
    - unfold install_docker, lift. rewrite Hget. reflexivity.
    - unfold auto_install_packages, lift. rewrite Hget. reflexivity. }
  rewrite E. split; reflexivity.
Qed.

Lemma missing_flag_disables_witness :
  flag_absent packages_only_heap 10%positive Update /\
  step apt_linux packages_only_heap 10%positive Update =
    ([Print (disabled_message Update)], Ok tt) /\
  runs (step apt_linux packages_only_heap 10%positive Update).1 = [].
Proof.
  assert (Ha : flag_absent packages_only_heap 10%positive Update).
  { eexists. split; [reflexivity|]. left. reflexivity. }
  split; [exact Ha|].
  apply (missing_flag_disables apt_linux packages_only_heap 10%positive Update).
  exact Ha.
Defined.

(** ** Detection of the package manager *)

Lemma first_found_split env pre cmd name post :
  (forall c n, (c, n) ∈ pre -> found env c = false) ->
  found env cmd = true ->
  first_found env (pre ++ (cmd, name) :: post) = Some name.
Proof.
  induction pre as [|[c n] pre IH]; intros Hpre Hcmd; simpl.
  - rewrite Hcmd. reflexivity.
  - rewrite (Hpre c n) by left. apply IH; [|assumption].
    intros c' n' Hin. apply (Hpre c' n'). right. assumption.
Qed.

Lemma first_found_none env l :
  (forall c n, (c, n) ∈ l -> found env c = false) ->
  first_found env l = None.
Proof.
  induction l as [|[c n] l IH]; intros Hl; simpl; [reflexivity|].
  rewrite (Hl c n) by left. apply IH.
  intros c' n' Hin. apply (Hl c' n'). right. assumption.
Qed.

(** C6: on Linux the candidates are tried in the declared order; the
    result is the identity of the first one found on the path, and
    [unknown-linux] when none is found.  With [pacman] found the result is
    [pacman], whether or not [apt] is found as well. *)
Theorem manager_priority env :
  system env = "Linux" ->
  managers.*1 =
    ["pacman"; "apt"; "dnf"; "yum"; "zypper"; "apk"; "emerge";
     "xbps-install"; "nix-env"] /\
  (forall pre cmd name post,
     managers = pre ++ (cmd, name) :: post ->
     (forall c n, (c, n) ∈ pre -> found env c = false) ->
     found env cmd = true ->
     detect_package_manager env = name) /\
  ((forall c n, (c, n) ∈ managers -> found env c = false) ->
   detect_package_manager env = "unknown-linux") /\
  (found env "pacman" = true -> found env "apt" = true ->
   detect_package_manager env = "pacman").
Proof.
  intros HL. unfold detect_package_manager. rewrite HL. cbn [String.eqb Ascii.eqb Bool.eqb].
  split; [reflexivity|]. split; [|split].
  - intros pre cmd name post -> Hpre Hcmd.
    rewrite (first_found_split env pre cmd name post Hpre Hcmd). reflexivity.
  - intros Hnone. rewrite (first_found_none env managers Hnone). reflexivity.
  - intros Hp _. unfold managers. cbn [first_found]. rewrite Hp. reflexivity.
Qed.

Lemma manager_priority_witness :
  system pacman_apt_linux = "Linux" /\
  found pacman_apt_linux "pacman" = true /\
  found pacman_apt_linux "apt" = true /\
  detect_package_manager pacman_apt_linux = "pacman".
Proof.
  split; [reflexivity|]. split; [reflexivity|]. split; [reflexivity|].
  apply (manager_priority pacman_apt_linux); reflexivity.
Defined.

(** ** The package loop *)

Lemma install_one_present env mk pkg :
  is_installed env pkg = true ->
  install_one env mk pkg = ([Print ("[OK] " +:+ pkg +:+ " already installed")], Ok tt).
Proof. intros H. unfold install_one. rewrite H. reflexivity. Qed.

Lemma install_loop_present env mk pkg rest :
  is_installed env pkg = true ->
  install_loop env mk (VStr pkg :: rest) =
    (Print ("[OK] " +:+ pkg +:+ " already installed")
       :: (install_loop env mk rest).1,
     (install_loop env mk rest).2).
Proof.
  intros H. cbn [install_loop]. rewrite (install_one_present env mk pkg H).
  unfold bind_in. cbn [bind fst]. change (runs [Print _]) with (@nil (list string)).
  rewrite advance_nil. destruct (install_loop env mk rest). reflexivity.
Qed.

Lemma install_loop_app mk (pre : list string) rest :
  forall env tpre,
    install_loop env mk (VStr <$> pre) = (tpre, Ok tt) ->
    install_loop env mk ((VStr <$> pre) ++ rest) =
      (tpre ++ (install_loop (advance env (runs tpre)) mk rest).1,
       (install_loop (advance env (runs tpre)) mk rest).2).
Proof.
  induction pre as [|p pre IH]; intros env tpre H.
  - injection H as <-. cbn [fmap list_fmap app runs omap list_omap].
    rewrite advance_nil. destruct (install_loop env mk rest). reflexivity.
  - rewrite fmap_cons in H. rewrite fmap_cons, <- app_comm_cons.
    cbn [install_loop] in H |- *. unfold bind_in in H |- *.
    destruct (install_one env mk p) as [t1 [[]|e]]; cbn [bind fst] in H |- *;
      [|discriminate].
    destruct (install_loop (advance env (runs t1)) mk (VStr <$> pre))
      as [t2 r2] eqn:E2.
    injection H as <- ->. rewrite (IH _ _ E2). cbn [fst snd].
    rewrite advance_app, runs_app, app_assoc. reflexivity.
Qed.




(** ** The distribution name *)

Lemma distro_file_missing env :
  os_release env = None -> get_linux_distro env = Ok (VStr "Unknown Linux").
Proof. intros H. unfold get_linux_distro. rewrite H. reflexivity. Qed.

Lemma distro_field_missing env lines :
  os_release env = Some lines ->
  Forall (fun line => String.prefix "PRETTY_NAME" line = false) lines ->
  get_linux_distro env = Ok VNone.
Proof.
  intros H Hall. unfold get_linux_distro. rewrite H. clear H.
  induction Hall as [|line rest Hline _ IH]; [reflexivity|].
  cbn [scan_release]. rewrite Hline. exact IH.
Qed.

(** C8 at a release file without the pretty-name field: the function
    returns [None], not the fallback name, and the line printed for the
    operating system is [OS: None]. *)
Theorem distro_without_pretty_name :
  get_linux_distro arch_linux = Ok VNone /\
  get_linux_distro arch_linux <> Ok (VStr "Unknown Linux") /\
  check_os arch_linux (fun _ _ => "") module_heap = ([Print "OS: None"], Ok tt).
Proof. split; [reflexivity|]. split; [discriminate|reflexivity]. Qed.

Lemma distro_pretty_name env name :
  os_release env =
    Some ["ID=ubuntu
";
          "PRETTY_NAME=" +:+ String (ascii_of_nat 34) name
             +:+ String (ascii_of_nat 34) "
"] ->
  name = "Ubuntu 22.04 LTS" ->
  get_linux_distro env = Ok (VStr "Ubuntu 22.04 LTS").
Proof. intros H ->. unfold get_linux_distro. rewrite H. reflexivity. Qed.

(** ** Loading the configuration *)

Lemma fresh_not_default h :
  has_default h -> fresh (dom h) ∉ default_addrs.
Proof.
  intros (H1 & H2 & H3) Hin.
  assert (Hdom : fresh (dom h) ∈ dom h); [|exact (is_fresh (dom h) Hdom)].
  apply elem_of_dom.
  apply default_addr_cases in Hin as [-> | [-> | ->]]; eauto.
Qed.

Lemma heap_le_alloc h es : heap_le h (<[fresh (dom h) := es]> h).
Proof.
  intros a ea Ha. exists []. rewrite app_nil_r.
  rewrite lookup_insert_ne; [assumption|].
  intros <-. apply (is_fresh (dom h)). apply elem_of_dom. eauto.
Qed.

Lemma has_default_alloc h es :
  has_default h -> has_default (<[fresh (dom h) := es]> h).
Proof.
  intros Hdef. apply (has_default_frame h); [assumption|].
  intros b Hb. apply lookup_insert_ne. intros <-.
  exact (fresh_not_default h Hdef Hb).
Qed.

Lemma loaded_config_alloc h :
  has_default h -> loaded_config (<[fresh (dom h) := []]> h) (fresh (dom h)).
Proof.
  intros Hdef. split; [apply fresh_not_default; assumption|].
  exists []. split; [apply lookup_insert_eq|]. intros k a. discriminate.
Qed.

(** A value that is true and is not a mapping makes the loader fail. *)
Lemma load_config_not_mapping fuel h v :
  truthy h v = true -> is_dict v = false ->
  load_config fuel (Some v) h = ([], Raise TypeError).
Proof.
  intros Ht Hd. unfold load_config. rewrite Ht.
  destruct v; try reflexivity. discriminate.
Qed.

(** A stored mapping is merged with the default and written back. *)
Lemma load_config_mapping fuel h c :
  (2 <= fuel)%nat -> has_default h -> loaded_config h c ->
  truthy h (VDict c) = true ->
  exists h',
    merge_config fuel DEFAULT_CONFIG c h = Ok h' /\
    load_config fuel (Some (VDict c)) h = ([Dump h' c], Ok (h', c)).
Proof.
  intros Hfuel Hdef Hload Ht.
  destruct fuel as [|[|n]]; [lia|lia|].
  destruct (merge_default_spec n h c Hdef Hload) as (h' & E & _).
  exists h'. split; [assumption|].
  unfold load_config. rewrite Ht. unfold lift. rewrite E. reflexivity.
Qed.

(** X4: an empty file: the loader takes a new empty dictionary, merges the
    default into it and writes back a configuration that has every key path
    of the default schema, with the default's version. *)
Lemma load_config_empty_file fuel h :
  (2 <= fuel)%nat -> has_default h ->
  exists h' c,
    load_config fuel (Some VNone) h = ([Dump h' c], Ok (h', c)) /\
    (forall p, is_Some (path_get h (VDict DEFAULT_CONFIG) p) ->
               is_Some (path_get h' (VDict c) p)) /\
    path_get h' (VDict c) ["app"; "version"] = Some (VStr "0.0.2").
Proof.
  intros Hfuel Hdef.
  pose proof (has_default_alloc h [] Hdef) as Hdef0.
  pose proof (loaded_config_alloc h Hdef) as Hload0.
  set (c := fresh (dom h)) in *. set (h0 := <[c := []]> h) in *.
  assert (Hc0 : h0 !! c = Some []) by apply lookup_insert_eq.
  destruct fuel as [|[|n]]; [lia|lia|].
  destruct (merge_default_spec n h0 c Hdef0 Hload0)
    as (h' & E & (_ & H12 & _) & Hle & Fapp & Fsys & Hpk).
  exists h', c. split; [|split].
  - unfold load_config. cbn [truthy]. fold c. fold h0.
    unfold lift. rewrite E. reflexivity.
  - intros p Hp. apply (filled_paths h0 h' c p); try assumption.
    + eauto.
    + destruct Hp as [w Hw]. exists w.
      apply (path_get_le h h0); [apply heap_le_alloc|assumption].
    + intros q r v -> Hr Hq. destruct q as [|k q].
      * injection Hq as <-. reflexivity.
      * simpl in Hq. rewrite Hc0 in Hq. discriminate.
  - destruct Fapp as (es & w & He & Hk & Hnew & _).
    rewrite (Hnew [] Hc0 eq_refl) in Hk.
    simpl. rewrite He, Hk, H12. reflexivity.
Qed.

(** No file: the loader writes the default and returns a copy of it. *)
Lemma load_config_no_file fuel h :
  has_default h ->
  load_config fuel None h =
    ([Print "[CONFIG] Creating config.yaml"; Dump h DEFAULT_CONFIG],
     Ok (<[fresh (dom h) := default_items]> h, fresh (dom h))).
Proof.
  intros (H1 & _). unfold load_config. rewrite H1. reflexivity.
Qed.

(** * Further properties of the code *)

(** ** [merge_config] on arbitrary mappings *)

Section merge_dom.
Variable rec : addr -> addr -> heap -> result heap.
Hypothesis rec_dom : forall d c h h' a,
  rec d c h = Ok h' -> is_Some (h' !! a) -> is_Some (h !! a).
Hypothesis rec_le : forall d c h h', rec d c h = Ok h' -> heap_le h h'.

Lemma merge_entry_dom c k v h h' a :
  merge_entry rec c k v h = Ok h' -> is_Some (h' !! a) -> is_Some (h !! a).
Proof.
  unfold merge_entry. destruct (h !! c) as [cur|] eqn:Hc; [|discriminate].
  destruct (dict_get k cur) as [cv|] eqn:Hk.
  - destruct v, cv; try (intros [= <-]; exact id). apply rec_dom.
  - intros [= <-]. destruct (decide (c = a)) as [->|Hne].
    + intros _. eauto.
    + rewrite lookup_insert_ne by assumption. exact id.
Qed.

Lemma merge_items_dom d c n items :
  forall h h' a,
    merge_items rec d c n items h = Ok h' ->
    is_Some (h' !! a) -> is_Some (h !! a).
Proof.
  induction items as [|[k v] items IH]; intros h h' a; simpl.
  - destruct (h !! d); [|discriminate].
    destruct (negb _); [discriminate|]. intros [= <-]. exact id.
  - destruct (h !! d); [|discriminate].
    destruct (negb _); [discriminate|].
    destruct (merge_entry rec c k v h) as [h1|] eqn:He; [|discriminate].
    intros H Ha. eapply merge_entry_dom; [eassumption|].
    eapply IH; eassumption.
Qed.

Lemma merge_entry_binds c k v h h' :
  merge_entry rec c k v h = Ok h' ->
  exists es, h' !! c = Some es /\ is_Some (dict_get k es).
Proof.
  unfold merge_entry. destruct (h !! c) as [cur|] eqn:Hc; [|discriminate].
  destruct (dict_get k cur) as [cv|] eqn:Hk.
  - intros H. assert (Hle : heap_le h h').
    { destruct v, cv; try (injection H as <-; apply heap_le_refl).
      eapply rec_le; eassumption. }
    destruct (Hle _ _ Hc) as [ext Hc']. exists (cur ++ ext).
    split; [assumption|]. rewrite (dict_get_app_Some _ _ _ _ Hk). eauto.
  - intros [= <-]. rewrite dict_setitem_new by assumption.
    exists (cur ++ [(k, v)]). split; [apply lookup_insert_eq|].
    rewrite dict_get_app, Hk. simpl. rewrite String.eqb_refl. eauto.
Qed.

Lemma merge_items_binds d c n items :
  forall h h',
    is_Some (h !! c) ->
    merge_items rec d c n items h = Ok h' ->
    exists es, h' !! c = Some es /\ covers items es.
Proof.
  induction items as [|[k v] items IH]; intros h h' [cur Hc]; simpl.
  - destruct (h !! d); [|discriminate].
    destruct (negb _); [discriminate|]. intros [= <-].
    exists cur. split; [assumption|]. intros k Hk. inversion Hk.
  - destruct (h !! d); [|discriminate].
    destruct (negb _); [discriminate|].
    destruct (merge_entry rec c k v h) as [h1|] eqn:He; [|discriminate].
    intros H.
    destruct (merge_entry_binds _ _ _ _ _ He) as (es1 & Hc1 & [w Hw]).
    destruct (IH h1 h' (ltac:(eauto)) H) as (es & Hes & Hcov).
    exists es. split; [assumption|].
    intros k' Hk'. simpl in Hk'. apply elem_of_cons in Hk' as [-> | Hk'].
    + pose proof (merge_items_le rec rec_le _ _ _ _ _ _ H) as Hle.
      destruct (Hle _ _ Hc1) as [ext Hext].
      assert (es = es1 ++ ext) as -> by congruence.
      rewrite (dict_get_app_Some _ _ _ _ Hw). eauto.
    + apply Hcov. assumption.
Qed.
End merge_dom.

Lemma merge_config_dom fuel :
  forall d c h h' a,
    merge_config fuel d c h = Ok h' -> is_Some (h' !! a) -> is_Some (h !! a).
Proof.
  induction fuel as [|n IH]; intros d c h h' a; simpl; [discriminate|].
  destruct (h !! d); [|discriminate].
  apply merge_items_dom. exact IH.
Qed.

(** X1: whatever the two mappings share, a call that returns has only
    appended items: every dictionary of the store is still there with its
    items in front, no dictionary has been created, and every key path that
    led to a value still leads to that value. *)
Theorem merge_only_appends fuel d c h h' :
  merge_config fuel d c h = Ok h' ->
  heap_le h h' /\
  dom h' = dom h /\
  (forall v p w, path_get h v p = Some w -> path_get h' v p = Some w).
Proof.
  intros H. pose proof (merge_config_le _ _ _ _ _ H) as Hle.
  split; [assumption|]. split.
  - apply set_eq. intros a. rewrite !elem_of_dom. split.
    + eapply merge_config_dom; eassumption.
    + apply heap_le_is_Some. assumption.
  - intros v p w. apply path_get_le. assumption.
Qed.

Lemma merge_only_appends_witness :
  merge_config 3 20%positive 30%positive shared_heap = Ok shared_heap_merged /\
  heap_le shared_heap shared_heap_merged /\
  dom shared_heap_merged = dom shared_heap /\
  (forall v p w, path_get shared_heap v p = Some w ->
                 path_get shared_heap_merged v p = Some w).
Proof.
  split; [vm_compute; reflexivity|].
  apply (merge_only_appends 3 20%positive 30%positive). vm_compute. reflexivity.
Defined.

(** X2: whatever the two mappings share, after a call that returns the
    current mapping binds every key the default had when the call started. *)
Theorem merge_binds_default_keys fuel d c h h' items :
  merge_config fuel d c h = Ok h' ->
  h !! d = Some items -> is_Some (h !! c) ->
  exists es, h' !! c = Some es /\ covers items es.
Proof.
  destruct fuel as [|n]; [discriminate|].
  intros H Hd Hc. rewrite (merge_config_S _ _ _ _ _ Hd) in H.
  eapply (merge_items_binds (merge_config n)); [|eassumption..].
  intros ? ? ? ?. apply merge_config_le.
Qed.

Lemma merge_binds_default_keys_witness :
  merge_config 3 20%positive 30%positive shared_heap = Ok shared_heap_merged /\
  shared_heap !! 20%positive =
    Some [("a", VDict 21%positive); ("b", VDict 22%positive)] /\
  is_Some (shared_heap !! 30%positive) /\
  exists es,
    shared_heap_merged !! 30%positive = Some es /\
    covers [("a", VDict 21%positive); ("b", VDict 22%positive)] es.
Proof.
  split; [vm_compute; reflexivity|]. split; [reflexivity|].
  split; [eexists; reflexivity|].
  apply (merge_binds_default_keys 3 20%positive 30%positive shared_heap);
    [vm_compute; reflexivity|reflexivity|eexists; reflexivity].
Defined.

Lemma merge_items_self n d items rest h :
  (forall dv, (exists k, dict_get k items = Some (VDict dv)) ->
              merge_config n dv dv h = Ok h) ->
  heap_wf h -> h !! d = Some items ->
  (exists done, items = done ++ rest) ->
  merge_items (merge_config n) d d (length items) rest h = Ok h.
Proof.
  intros Hrec Hwf Hd. induction rest as [|[k v] rest IH]; intros [done Hitems].
  - apply merge_items_nil. assumption.
  - rewrite (merge_items_cons _ _ _ _ _ _ _ _ Hd).
    assert (Hkv : dict_get k items = Some v).
    { apply dict_get_of_elem; [eapply Hwf; eassumption|].
      rewrite Hitems. apply elem_of_app. right. left. }
    assert (He : merge_entry (merge_config n) d k v h = Ok h).
    { unfold merge_entry. rewrite Hd, Hkv.
      destruct v as [| | | | |dv]; try reflexivity.
      apply Hrec. eauto. }
    rewrite He. apply IH. exists (done ++ [(k, v)]).
    rewrite <- app_assoc. assumption.
Qed.

(** X3: merging a mapping into itself changes nothing, provided its
    nesting is below the recursion limit (this is what happens to every
    default dictionary that a first merge stored in the configuration). *)
Theorem merge_self_noop fuel :
  forall d h,
    heap_wf h -> heap_closed h -> is_Some (h !! d) ->
    depth_below fuel h d ->
    merge_config fuel d d h = Ok h.
Proof.
  induction fuel as [|n IH]; intros d h Hwf Hcl [items Hd] Hdep.
  - specialize (Hdep [] d eq_refl). simpl in Hdep. lia.
  - rewrite (merge_config_S _ _ _ _ _ Hd).
    apply merge_items_self; try assumption; [|exists []; reflexivity].
    intros dv [k Hk]. apply IH; try assumption.
    + exact (Hcl d items k dv Hd Hk).
    + intros p a Hp.
      assert (Hlen : (length (k :: p) < S n)%nat).
      { apply (Hdep _ a). rewrite (path_get_cons _ _ _ _ _ _ Hd Hk). assumption. }
      simpl in Hlen. lia.
Qed.

Lemma merge_self_noop_witness :
  heap_wf plain_heap /\ heap_closed plain_heap /\
  is_Some (plain_heap !! 20%positive) /\
  depth_below 2 plain_heap 20%positive /\
  merge_config 2 20%positive 20%positive plain_heap = Ok plain_heap.
Proof.
  split; [exact plain_heap_wf|]. split; [exact plain_heap_closed|].
  split; [eexists; reflexivity|]. split; [exact plain_heap_depth|].
  apply (merge_self_noop 2 20%positive plain_heap);
    [exact plain_heap_wf|exact plain_heap_closed|eexists; reflexivity
    |exact plain_heap_depth].
Defined.

(** ** [load_config] and the start of the program *)

Lemma load_config_empty_file_witness :
  (2 <= 2)%nat /\ has_default module_heap /\
  exists h' c,
    load_config 2 (Some VNone) module_heap = ([Dump h' c], Ok (h', c)) /\
    (forall p, is_Some (path_get module_heap (VDict DEFAULT_CONFIG) p) ->
               is_Some (path_get h' (VDict c) p)) /\
    path_get h' (VDict c) ["app"; "version"] = Some (VStr "0.0.2").
Proof.
  split; [lia|]. split; [exact module_heap_default|].
  apply (load_config_empty_file 2 module_heap); [lia|exact module_heap_default].
Defined.

(** X5: when the file holds a value that is true and is not a mapping (a
    list, a string, a number), the program raises a [TypeError] while loading:
    nothing is printed, nothing is written back, no step runs, and the exit
    status is 1. *)
Theorem program_rejects_non_mapping fuel env py_repr h v :
  truthy h v = true -> is_dict v = false ->
  program fuel env py_repr (Some v) h = ([], Raise TypeError) /\
  exit_status (program fuel env py_repr (Some v) h).2 = 1%Z.
Proof.
  intros Ht Hd.
  assert (E : program fuel env py_repr (Some v) h = ([], Raise TypeError)).
  { unfold program. rewrite (load_config_not_mapping fuel h v Ht Hd). reflexivity. }
  rewrite E. split; reflexivity.
Qed.

Lemma program_rejects_non_mapping_witness :
  truthy module_heap (VList [VStr "git"]) = true /\
  is_dict (VList [VStr "git"]) = false /\
  program 2 apt_linux (fun _ _ => "") (Some (VList [VStr "git"])) module_heap =
    ([], Raise TypeError) /\
  exit_status
    (program 2 apt_linux (fun _ _ => "") (Some (VList [VStr "git"])) module_heap).2
  = 1%Z.
Proof.
  split; [reflexivity|]. split; [reflexivity|].
  apply (program_rejects_non_mapping 2 apt_linux (fun _ _ => "") module_heap
           (VList [VStr "git"])); reflexivity.
Defined.

(** X6: for a stored mapping the loader returns the mapping itself, merged;
    what it writes back is exactly what it returns; the dictionaries of
    [DEFAULT_CONFIG] are untouched; and the configuration binds every
    top-level key of the default. *)
Theorem load_writes_what_it_returns fuel h c :
  (2 <= fuel)%nat -> has_default h -> loaded_config h c ->
  truthy h (VDict c) = true ->
  exists h',
    load_config fuel (Some (VDict c)) h = ([Dump h' c], Ok (h', c)) /\
    has_default h' /\ heap_le h h' /\
    exists es, h' !! c = Some es /\ covers default_items es.
Proof.
  intros Hfuel Hdef Hload Ht.
  destruct fuel as [|[|n]]; [lia|lia|].
  destruct (merge_default_spec n h c Hdef Hload)
    as (h' & E & Hdef' & Hle & Fapp & Fsys & es & Hes & Hpk).
  exists h'. split; [|split; [assumption|split; [assumption|]]].
  - unfold load_config. rewrite Ht. unfold lift. rewrite E. reflexivity.
  - exists es. split; [assumption|].
    destruct Fapp as (e1 & w1 & He1 & Hk1 & _).
    destruct Fsys as (e2 & w2 & He2 & Hk2 & _).
    assert (e1 = es) by congruence. assert (e2 = es) by congruence. subst.
    intros k Hk. unfold default_items in Hk. simpl in Hk.
    repeat (apply elem_of_cons in Hk as [-> | Hk]; [eauto|]). inversion Hk.
Qed.

Lemma load_writes_what_it_returns_witness :
  (2 <= 2)%nat /\ has_default user_heap /\ loaded_config user_heap 10%positive /\
  truthy user_heap (VDict 10%positive) = true /\
  exists h',
    load_config 2 (Some (VDict 10%positive)) user_heap =
      ([Dump h' 10%positive], Ok (h', 10%positive)) /\
    has_default h' /\ heap_le user_heap h' /\
    exists es, h' !! 10%positive = Some es /\ covers default_items es.
Proof.
  split; [lia|]. split; [exact user_heap_default|].
  split; [exact user_heap_loaded|]. split; [reflexivity|].
  apply (load_writes_what_it_returns 2 user_heap 10%positive);
    [lia|exact user_heap_default|exact user_heap_loaded|reflexivity].
Defined.

(** X7: without a file the loader announces it, writes the default, and
    returns a new dictionary that is not [DEFAULT_CONFIG] but has its items:
    every key path of the default leads to the same value in the copy, and
    the nested dictionaries are the default's own (the copy is shallow). *)
Theorem load_without_file_copies_default fuel h :
  has_default h ->
  exists a,
    load_config fuel None h =
      ([Print "[CONFIG] Creating config.yaml"; Dump h DEFAULT_CONFIG],
       Ok (<[a := default_items]> h, a)) /\
    a <> DEFAULT_CONFIG /\ h !! a = None /\
    has_default (<[a := default_items]> h) /\
    (forall k p w,
       path_get h (VDict DEFAULT_CONFIG) (k :: p) = Some w ->
       path_get (<[a := default_items]> h) (VDict a) (k :: p) = Some w) /\
    path_get (<[a := default_items]> h) (VDict a) ["app"] = Some (VDict DEFAULT_app).
Proof.
  intros Hdef. exists (fresh (dom h)).
  pose proof (fresh_not_default h Hdef) as Hfresh.
  pose proof Hdef as (H1 & _).
  split; [apply load_config_no_file; assumption|].
  split; [intros E; apply Hfresh; rewrite E; left|].
  split; [apply not_elem_of_dom; apply is_fresh|].
  split; [apply has_default_alloc; assumption|]. split.
  - intros k p w Hp. simpl in Hp. rewrite H1 in Hp.
    simpl. rewrite lookup_insert_eq.
    destruct (dict_get k default_items) as [u|]; [|discriminate].
    apply (path_get_le h); [apply heap_le_alloc|assumption].
  - simpl. rewrite lookup_insert_eq. reflexivity.
Qed.

Lemma load_without_file_copies_default_witness :
  has_default module_heap /\
  exists a,
    load_config 2 None module_heap =
      ([Print "[CONFIG] Creating config.yaml"; Dump module_heap DEFAULT_CONFIG],
       Ok (<[a := default_items]> module_heap, a)) /\
    a <> DEFAULT_CONFIG /\ module_heap !! a = None /\
    has_default (<[a := default_items]> module_heap) /\
    (forall k p w,
       path_get module_heap (VDict DEFAULT_CONFIG) (k :: p) = Some w ->
       path_get (<[a := default_items]> module_heap) (VDict a) (k :: p) = Some w) /\
    path_get (<[a := default_items]> module_heap) (VDict a) ["app"]
      = Some (VDict DEFAULT_app).
Proof.
  split; [exact module_heap_default|].
  apply (load_without_file_copies_default 2 module_heap).
  exact module_heap_default.
Defined.

(** ** Flags *)

(** X8: a flag that is present with a value Python takes as false (False,
    0, an empty string or list, None) switches the step off just as a missing
    flag does: the step prints its disabled line, starts no process and
    returns. *)
Theorem falsy_flag_disables env h config a flag :
  system_get h config (flag_of a) (VBool false) = Ok flag ->
  truthy h flag = false ->
  step env h config a = ([Print (disabled_message a)], Ok tt) /\
  runs (step env h config a).1 = [].
Proof.
  intros Hget Hf.
  assert (E : step env h config a = ([Print (disabled_message a)], Ok tt)).
  { destruct a; unfold flag_of in Hget; unfold step, disabled_message.
    - unfold auto_update_system, lift. rewrite Hget. cbn [bind].
      rewrite Hf. reflexivity.
    - unfold install_docker, lift. rewrite Hget. cbn [bind].
      rewrite Hf. reflexivity.
    - unfold auto_install_packages, lift. rewrite Hget. cbn [bind].
      rewrite Hf. reflexivity. }
  rewrite E. split; reflexivity.
Qed.

Lemma falsy_flag_disables_witness :
  system_get quiet_heap 10%positive (flag_of InstallDocker) (VBool false)
    = Ok (VStr "") /\
  truthy quiet_heap (VStr "") = false /\
  step apt_linux quiet_heap 10%positive InstallDocker =
    ([Print (disabled_message InstallDocker)], Ok tt) /\
  runs (step apt_linux quiet_heap 10%positive InstallDocker).1 = [].
Proof.
  split; [reflexivity|]. split; [reflexivity|].
  apply (falsy_flag_disables apt_linux quiet_heap 10%positive InstallDocker
           (VStr "")); reflexivity.
Defined.

(** ** Package managers and dispatch tables *)

Lemma table_get_is_Some {A} k (t : list (string * A)) :
  is_Some (table_get k t) <-> k ∈ t.*1.
Proof.
  induction t as [|[k' v] t IH]; simpl.
  - split; [intros [? ?]; discriminate|intros H; inversion H].
  - destruct (String.eqb_spec k k') as [->|Hne].
    + split; [intros _; left|eauto].
    + rewrite IH, elem_of_cons. tauto.
Qed.

Lemma first_found_in env l name :
  first_found env l = Some name -> name ∈ l.*2.
Proof.
  induction l as [|[c n] l IH]; simpl; [discriminate|].
  destruct (found env c).
  - intros [= ->]. left.
  - intros H. right. auto.
Qed.

(** X9: whatever the host, the detected identity is one of the nine Linux
    managers, [brew], [macports] or one of the three unknown/unsupported
    markers; and the three dispatch tables know the same six of them. *)
Theorem detected_manager_support env a :
  detect_package_manager env ∈
    managers.*2 ++
    ["unknown-linux"; "brew"; "macports"; "unknown-macos"; "unsupported-os"] /\
  (forall pm,
     supports a pm = true <->
     pm ∈ ["pacman"; "apt"; "dnf"; "yum"; "apk"; "brew"]).
Proof.
  split.
  - unfold detect_package_manager.
    destruct (String.eqb (system env) "Linux").
    + destruct (first_found env managers) as [name|] eqn:E.
      * apply elem_of_app. left. eapply first_found_in. eassumption.
      * apply elem_of_app. right. left.
    + apply elem_of_app. right.
      destruct (String.eqb (system env) "Darwin");
        [destruct (found env "brew"); [|destruct (found env "port")]|];
        repeat constructor.
  - intros pm. destruct a; unfold supports;
      rewrite bool_decide_eq_true, table_get_is_Some; reflexivity.
Qed.

Lemma step_unsupported env h config a :
  supports a (detect_package_manager env) = false ->
  dispatches h config a ->
  step env h config a =
    ([Print (unsupported_warning a (detect_package_manager env))], Ok tt).
Proof.
  intros Hsup [(flag & Hflag & Htrue) Hpk].
  destruct a; unfold supports in Hsup; apply bool_decide_eq_false in Hsup;
    rewrite <- eq_None_not_Some in Hsup; unfold flag_of in Hflag;
    unfold step, unsupported_warning.
  - unfold auto_update_system, lift. rewrite Hflag. cbn [bind].
    rewrite Htrue. cbn [negb]. rewrite Hsup. reflexivity.
  - unfold install_docker, lift. rewrite Hflag. cbn [bind].
    rewrite Htrue. cbn [negb]. rewrite Hsup. reflexivity.
  - destruct Hpk as (packages & Hpk & Hptrue).
    unfold auto_install_packages, lift. rewrite Hflag. cbn [bind].
    rewrite Htrue. cbn [negb]. rewrite Hpk. cbn [bind].
    rewrite Hptrue. cbn [negb]. rewrite Hsup. reflexivity.
Qed.

(** X10: on macOS, Homebrew wins over MacPorts; with MacPorts alone the
    identity is [macports], which no table knows, so every step that is
    switched on only prints its warning and starts no process. *)
Theorem macports_only_warns env h config a :
  system env = "Darwin" ->
  (found env "brew" = true -> detect_package_manager env = "brew") /\
  (found env "brew" = false -> found env "port" = true ->
   dispatches h config a ->
   detect_package_manager env = "macports" /\
   step env h config a = ([Print (unsupported_warning a "macports")], Ok tt)).
Proof.
  intros HD.
  assert (E : detect_package_manager env =
              if found env "brew" then "brew"
              else if found env "port" then "macports" else "unknown-macos").
  { unfold detect_package_manager. rewrite HD. reflexivity. }
  split.
  - intros Hb. rewrite E, Hb. reflexivity.
  - intros Hb Hp Hdis. rewrite Hb, Hp in E. split; [assumption|].
    rewrite (step_unsupported env h config a); [rewrite E; reflexivity| |assumption].
    rewrite E. destruct a; reflexivity.
Qed.

Lemma macports_only_warns_witness :
  system macports_mac = "Darwin" /\
  found macports_mac "brew" = false /\ found macports_mac "port" = true /\
  dispatches module_heap DEFAULT_CONFIG Update /\
  detect_package_manager macports_mac = "macports" /\
  step macports_mac module_heap DEFAULT_CONFIG Update =
    ([Print (unsupported_warning Update "macports")], Ok tt).
Proof.
  assert (Hd : dispatches module_heap DEFAULT_CONFIG Update).
  { split; [eexists; split; reflexivity|exact I]. }
  split; [reflexivity|]. split; [reflexivity|]. split; [reflexivity|].
  split; [exact Hd|].
  exact (proj2 (macports_only_warns macports_mac module_heap DEFAULT_CONFIG
                  Update eq_refl) eq_refl eq_refl Hd).
Defined.

Lemma install_command_last pm mk p :
  table_get pm INSTALL_COMMANDS = Some mk -> last (mk p) = Some p.
Proof.
  intros H. simpl in H.
  repeat (destruct (String.eqb pm _); [injection H as <-; reflexivity|]).
  discriminate.
Qed.

(** X11: every command in the three tables runs the manager it is filed
    under, through [sudo] unless the manager is [brew]; and an install
    command ends with the package name. *)
Theorem commands_run_the_manager pm cmd :
  table_get pm update_commands = Some cmd \/
  table_get pm docker_packages = Some cmd \/
  (exists mk p, table_get pm INSTALL_COMMANDS = Some mk /\ cmd = mk p) ->
  ((pm = "brew" /\ exists args, cmd = "brew" :: args) \/
   (pm <> "brew" /\ exists args, cmd = "sudo" :: pm :: args)) /\
  (forall mk p, table_get pm INSTALL_COMMANDS = Some mk -> cmd = mk p ->
                last cmd = Some p).
Proof.
  intros H. split; [|intros mk p Hmk ->; eapply install_command_last; eassumption].
  assert (Hcases :
    pm = "pacman" \/ pm = "apt" \/ pm = "dnf" \/ pm = "yum" \/ pm = "apk" \/
    pm = "brew").
  { assert (Hin : pm ∈ ["pacman"; "apt"; "dnf"; "yum"; "apk"; "brew"]).
    { destruct H as [H|[H|(mk & p & H & _)]];
        [change (pm ∈ update_commands.*1)|change (pm ∈ docker_packages.*1)
        |change (pm ∈ INSTALL_COMMANDS.*1)];
        apply table_get_is_Some; rewrite H; eauto. }
    repeat (apply elem_of_cons in Hin as [Hin|Hin]; [tauto|]). inversion Hin. }
  destruct Hcases as [->|[->|[->|[->|[->| ->]]]]];
    destruct H as [H|[H|(mk & p & H & ->)]];
    simpl in H; injection H as <-;
    ((left; split; [reflexivity|eexists; reflexivity])
     || (right; split; [discriminate|eexists; reflexivity])).
Qed.

Lemma commands_run_the_manager_witness :
  (exists mk p, table_get "apt" INSTALL_COMMANDS = Some mk /\
                ["sudo"; "apt"; "install"; "-y"; "git"] = mk p) /\
  (("apt" = "brew" /\
    exists args, ["sudo"; "apt"; "install"; "-y"; "git"] = "brew" :: args) \/
   ("apt" <> "brew" /\
    exists args, ["sudo"; "apt"; "install"; "-y"; "git"] = "sudo" :: "apt" :: args)) /\
  (forall mk p, table_get "apt" INSTALL_COMMANDS = Some mk ->
                ["sudo"; "apt"; "install"; "-y"; "git"] = mk p ->
                last ["sudo"; "apt"; "install"; "-y"; "git"] = Some p).
Proof.
  assert (H : exists mk p, table_get "apt" INSTALL_COMMANDS = Some mk /\
                ["sudo"; "apt"; "install"; "-y"; "git"] = mk p).
  { exists (fun p => ["sudo"; "apt"; "install"; "-y"; p]), "git". split; reflexivity. }
  split; [exact H|].
  exact (commands_run_the_manager "apt" ["sudo"; "apt"; "install"; "-y"; "git"]
           (or_intror (or_intror H))).
Defined.

(** ** The package loop, in full *)

Lemma install_loop_sublist mk names :
  forall env,
    sublist (runs (install_loop env mk (VStr <$> names)).1) (mk <$> names).
Proof.
  induction names as [|p names IH]; intros env; [constructor|].
  rewrite !fmap_cons. cbn [install_loop]. unfold bind_in.
  rewrite bind_trace, runs_app. unfold install_one.
  destruct (is_installed env p).
  - cbn [print fst snd runs omap list_omap app]. apply sublist_cons. apply IH.
  - unfold run. destruct (existsb has_nul (mk p));
      [cbn [print bind fst snd app]; apply sublist_nil_l|].
    destruct (launches_after env (past env) (mk p)).
    + cbn [print bind fst snd app]. apply (sublist_skip (mk p)). apply IH.
    + cbn [print bind fst snd app]. apply sublist_nil_l.
Qed.

Lemma install_loop_all_present env mk names :
  Forall (fun p => is_installed env p = true) names ->
  install_loop env mk (VStr <$> names) =
    ((fun p => Print ("[OK] " +:+ p +:+ " already installed")) <$> names, Ok tt).
Proof.
  induction 1 as [|p names Hp _ IH]; [reflexivity|].
  rewrite !fmap_cons, (install_loop_present env mk p _ Hp), IH. reflexivity.
Qed.

(** X12: when the package step is switched on and the manager is known,
    every process it starts is the install command of a configured name, in
    the configured order and at most once per entry; and when every name is
    found on the path it starts nothing, prints one line per name and
    returns.  The names are what iterating the configured value yields: the
    elements of a list, but the characters of a string. *)
Theorem install_starts_only_listed env h config flag packages names mk :
  system_get h config "auto_install" (VBool false) = Ok flag ->
  truthy h flag = true ->
  config_get h config "packages" (VList []) = Ok packages ->
  truthy h packages = true ->
  py_iter h packages = Ok (VStr <$> names) ->
  table_get (detect_package_manager env) INSTALL_COMMANDS = Some mk ->
  sublist (runs (auto_install_packages env h config).1) (mk <$> names) /\
  (Forall (fun p => is_installed env p = true) names ->
   auto_install_packages env h config =
     (Print ("[INFO] Installing packages using: " +:+ detect_package_manager env)
        :: ((fun p => Print ("[OK] " +:+ p +:+ " already installed")) <$> names),
      Ok tt)).
Proof.
  intros Hflag Htrue Hpk Hpt Hiter Hmk.
  assert (E : auto_install_packages env h config =
    (Print ("[INFO] Installing packages using: " +:+ detect_package_manager env)
       :: (install_loop env mk (VStr <$> names)).1,
     (install_loop env mk (VStr <$> names)).2)).
  { unfold auto_install_packages, lift. rewrite Hflag. cbn [bind].
    rewrite Htrue. cbn [negb]. rewrite Hpk. cbn [bind].
    rewrite Hpt. cbn [negb]. rewrite Hmk, Hiter. cbn [print bind].
    destruct (install_loop env mk (VStr <$> names)). reflexivity. }
  rewrite E. split.
  - cbn [fst]. apply install_loop_sublist.
  - intros Hall. rewrite (install_loop_all_present env mk names Hall). reflexivity.
Qed.

Lemma install_starts_only_listed_witness :
  system_get scalar_heap 10%positive "auto_install" (VBool false) = Ok (VBool true) /\
  truthy scalar_heap (VBool true) = true /\
  config_get scalar_heap 10%positive "packages" (VList []) = Ok (VStr "git") /\
  truthy scalar_heap (VStr "git") = true /\
  py_iter scalar_heap (VStr "git") = Ok (VStr <$> ["g"; "i"; "t"]) /\
  table_get (detect_package_manager debian_host) INSTALL_COMMANDS =
    Some (fun p => ["sudo"; "apt"; "install"; "-y"; p]) /\
  sublist (runs (auto_install_packages debian_host scalar_heap 10%positive).1)
    [["sudo"; "apt"; "install"; "-y"; "g"];
     ["sudo"; "apt"; "install"; "-y"; "i"];
     ["sudo"; "apt"; "install"; "-y"; "t"]].
Proof.
  split; [reflexivity|]. split; [reflexivity|]. split; [reflexivity|].
  split; [reflexivity|]. split; [reflexivity|]. split; [reflexivity|].
  exact (proj1 (install_starts_only_listed debian_host scalar_heap 10%positive
                  (VBool true) (VStr "git") ["g"; "i"; "t"]
                  (fun p => ["sudo"; "apt"; "install"; "-y"; p])
                  eq_refl eq_refl eq_refl eq_refl eq_refl eq_refl)).
Defined.

(** X13: a package entry that is not a string stops the package step with
    a [TypeError] when the entries before it have been handled without an
    exception: their events are all the step has done, and the entries after
    it are never looked at. *)
Theorem install_stops_at_non_string env h config flag packages
    (pre : list string) v post mk tpre :
  system_get h config "auto_install" (VBool false) = Ok flag ->
  truthy h flag = true ->
  config_get h config "packages" (VList []) = Ok packages ->
  truthy h packages = true ->
  py_iter h packages = Ok ((VStr <$> pre) ++ v :: post) ->
  (forall s, v <> VStr s) ->
  table_get (detect_package_manager env) INSTALL_COMMANDS = Some mk ->
  install_loop env mk (VStr <$> pre) = (tpre, Ok tt) ->
  auto_install_packages env h config =
    (Print ("[INFO] Installing packages using: " +:+ detect_package_manager env)
       :: tpre,
     Raise TypeError).
Proof.
  intros Hflag Htrue Hpk Hpt Hiter Hv Hmk Hpre.
  unfold auto_install_packages, lift. rewrite Hflag. cbn [bind].
  rewrite Htrue. cbn [negb]. rewrite Hpk. cbn [bind].
  rewrite Hpt. cbn [negb]. rewrite Hmk, Hiter. cbn [print bind].
  rewrite (install_loop_app mk pre (v :: post) env tpre Hpre).
  assert (E : install_loop (advance env (runs tpre)) mk (v :: post) =
              ([], Raise TypeError)).
  { destruct v; try reflexivity. exfalso. exact (Hv s eq_refl). }
  rewrite E. cbn [fst snd]. rewrite app_nil_r. reflexivity.
Qed.

Lemma install_stops_at_non_string_witness :
  system_get mixed_heap 10%positive "auto_install" (VBool false) = Ok (VBool true) /\
  truthy mixed_heap (VBool true) = true /\
  config_get mixed_heap 10%positive "packages" (VList []) =
    Ok (VList [VStr "curl"; VInt 7; VStr "htop"]) /\
  truthy mixed_heap (VList [VStr "curl"; VInt 7; VStr "htop"]) = true /\
  py_iter mixed_heap (VList [VStr "curl"; VInt 7; VStr "htop"]) =
    Ok ((VStr <$> ["curl"]) ++ VInt 7 :: [VStr "htop"]) /\
  (forall s, VInt 7 <> VStr s) /\
  table_get (detect_package_manager debian_host) INSTALL_COMMANDS =
    Some (fun p => ["sudo"; "apt"; "install"; "-y"; p]) /\
  install_loop debian_host (fun p => ["sudo"; "apt"; "install"; "-y"; p])
    (VStr <$> ["curl"]) =
    ([Print "[INSTALL] sudo apt install -y curl";
      Run ["sudo"; "apt"; "install"; "-y"; "curl"]], Ok tt) /\
  auto_install_packages debian_host mixed_heap 10%positive =
    ([Print "[INFO] Installing packages using: apt";
      Print "[INSTALL] sudo apt install -y curl";
      Run ["sudo"; "apt"; "install"; "-y"; "curl"]],
     Raise TypeError).
Proof.
  split; [reflexivity|]. split; [reflexivity|]. split; [reflexivity|].
  split; [reflexivity|]. split; [reflexivity|]. split; [discriminate|].
  split; [reflexivity|]. split; [reflexivity|].
  exact (install_stops_at_non_string debian_host mixed_heap 10%positive (VBool true)
           (VList [VStr "curl"; VInt 7; VStr "htop"]) ["curl"] (VInt 7)
           [VStr "htop"] (fun p => ["sudo"; "apt"; "install"; "-y"; p])
           [Print "[INSTALL] sudo apt install -y curl";
            Run ["sudo"; "apt"; "install"; "-y"; "curl"]]
           eq_refl eq_refl eq_refl eq_refl eq_refl
           (fun s H => eq_ind (VInt 7)
                         (fun v => match v with VInt _ => True | _ => False end)
                         I (VStr s) H)
           eq_refl eq_refl).
Defined.

(** ** The service loop *)

Lemma always_launches_advance env prog cmds :
  always_launches env prog -> always_launches (advance env cmds) prog.
Proof. intros H hist args. exact (H hist args). Qed.

Lemma run_launched env prog args :
  always_launches env prog ->
  existsb has_nul (prog :: args) = false ->
  run env (prog :: args) = ([Run (prog :: args)], Ok tt).
Proof. intros H Hn. unfold run. rewrite Hn, H. reflexivity. Qed.

Lemma enable_command_nul s :
  existsb has_nul ["sudo"; "systemctl"; "enable"; "--now"; s] = has_nul s.
Proof. cbn. apply orb_false_r. Qed.

Lemma enable_loop_app py_repr h (pre : list string) rest :
  Forall (fun s => has_nul s = false) pre ->
  forall env,
    always_launches env "sudo" ->
    enable_loop env py_repr h ((VStr <$> pre) ++ rest) =
      (concat (service_events <$> pre)
         ++ (enable_loop (advance env (runs (concat (service_events <$> pre))))
               py_repr h rest).1,
       (enable_loop (advance env (runs (concat (service_events <$> pre))))
          py_repr h rest).2).
Proof.
  induction 1 as [|s pre Hs _ IH]; intros env Hl.
  - cbn [fmap list_fmap app concat runs omap list_omap]. rewrite advance_nil.
    destruct (enable_loop env py_repr h rest). reflexivity.
  - rewrite !fmap_cons, <- app_comm_cons. cbn [enable_loop py_str concat].
    rewrite (run_launched env "sudo" _ Hl
               (eq_trans (enable_command_nul s) Hs)).
    unfold bind_in. cbn [print bind fst app].
    change (runs [Run ?c]) with [c].
    rewrite (IH _ (always_launches_advance env "sudo" _ Hl)).
    cbn [fst snd]. rewrite advance_app. unfold service_events at 1 4 5.
    cbn [app runs omap list_omap]. reflexivity.
Qed.

Lemma enable_loop_strings env py_repr h names :
  always_launches env "sudo" ->
  Forall (fun s => has_nul s = false) names ->
  enable_loop env py_repr h (VStr <$> names) =
    (concat (service_events <$> names), Ok tt).
Proof.
  intros Hl Hn. rewrite <- (app_nil_r (VStr <$> names)).
  rewrite (enable_loop_app py_repr h names [] Hn env Hl).
  cbn [enable_loop ret fst snd]. rewrite app_nil_r. reflexivity.
Qed.

Lemma enable_loop_stops env py_repr h (pre : list string) v post :
  always_launches env "sudo" ->
  Forall (fun s => has_nul s = false) pre ->
  (forall s, v <> VStr s) ->
  enable_loop env py_repr h ((VStr <$> pre) ++ v :: post) =
    (concat (service_events <$> pre)
       ++ [Print ("[SERVICE] Enabling " +:+ py_str py_repr h v)],
     Raise TypeError).
Proof.
  intros Hl Hn Hv. rewrite (enable_loop_app py_repr h pre (v :: post) Hn env Hl).
  set (env' := advance env _).
  assert (E : enable_loop env' py_repr h (v :: post) =
              ([Print ("[SERVICE] Enabling " +:+ py_str py_repr h v)],
               Raise TypeError)).
  { destruct v; try reflexivity. exfalso. exact (Hv s eq_refl). }
  rewrite E. reflexivity.
Qed.

(** X14: with a service list that is true, everything hinges on
    [systemctl] and on [sudo].  When [systemctl] is not found, the step
    prints one warning and starts no process, whatever the list holds.  When
    it is found, [sudo] can be started and the list yields names without a
    NUL character, each name gets its status line and its
    [systemctl enable --now] call, in order, and the step returns.  When it
    is found and the call for the first name cannot be started, the step
    prints that name's status line and raises: a [ValueError] for a name
    with a NUL character, an [OSError] otherwise. *)
Theorem services_need_systemctl env py_repr h config services :
  system_get h config "enable_services" (VList []) = Ok services ->
  truthy h services = true ->
  (found env "systemctl" = false ->
   enable_services env py_repr h config =
     ([Print "[WARN] systemd not detected"], Ok tt)) /\
  (found env "systemctl" = true -> always_launches env "sudo" ->
   forall names, py_iter h services = Ok (VStr <$> names) ->
   Forall (fun s => has_nul s = false) names ->
   enable_services env py_repr h config =
     (concat (service_events <$> names), Ok tt)) /\
  (found env "systemctl" = true ->
   forall s rest, py_iter h services = Ok (VStr s :: rest) ->
   (has_nul s = true ->
    enable_services env py_repr h config =
      ([Print ("[SERVICE] Enabling " +:+ s)], Raise ValueError)) /\
   (has_nul s = false ->
    launches_after env (past env) ["sudo"; "systemctl"; "enable"; "--now"; s]
      = false ->
    enable_services env py_repr h config =
      ([Print ("[SERVICE] Enabling " +:+ s)], Raise OSError))).
Proof.
  intros Hget Ht. split; [|split].
  - intros Hf. unfold enable_services, lift. rewrite Hget. cbn [bind].
    rewrite Ht, Hf. reflexivity.
  - intros Hf Hl names Hiter Hn. unfold enable_services, lift. rewrite Hget.
    cbn [bind]. rewrite Ht, Hf. cbn [negb]. rewrite Hiter. cbn [bind].
    rewrite (enable_loop_strings env py_repr h names Hl Hn). reflexivity.
  - intros Hf s rest Hiter.
    unfold enable_services, lift. rewrite Hget.
    cbn [bind]. rewrite Ht, Hf. cbn [negb]. rewrite Hiter.
    cbn [bind enable_loop py_str]. unfold bind_in, run.
    rewrite enable_command_nul. split.
    + intros ->. reflexivity.
    + intros -> ->. reflexivity.
Qed.

Lemma debian_sudo : always_launches debian_host "sudo".
Proof. intros hist args. reflexivity. Qed.

Lemma services_need_systemctl_witness :
  system_get scalar_heap 10%positive "enable_services" (VList []) = Ok (VStr "ab") /\
  truthy scalar_heap (VStr "ab") = true /\
  found debian_host "systemctl" = true /\
  always_launches debian_host "sudo" /\
  py_iter scalar_heap (VStr "ab") = Ok (VStr <$> ["a"; "b"]) /\
  Forall (fun s => has_nul s = false) ["a"; "b"] /\
  enable_services debian_host (fun _ _ => "") scalar_heap 10%positive =
    ([Print "[SERVICE] Enabling a";
      Run ["sudo"; "systemctl"; "enable"; "--now"; "a"];
      Print "[SERVICE] Enabling b";
      Run ["sudo"; "systemctl"; "enable"; "--now"; "b"]],
     Ok tt).
Proof.
  assert (Hn : Forall (fun s => has_nul s = false) ["a"; "b"]).
  { apply Forall_cons. split; [reflexivity|].
    apply Forall_cons. split; [reflexivity|constructor]. }
  split; [reflexivity|]. split; [reflexivity|]. split; [reflexivity|].
  split; [exact debian_sudo|]. split; [reflexivity|]. split; [exact Hn|].
  exact (proj1 (proj2 (services_need_systemctl debian_host (fun _ _ => "")
                         scalar_heap 10%positive (VStr "ab") eq_refl eq_refl))
           eq_refl debian_sudo ["a"; "b"] eq_refl Hn).
Defined.

(** X15: when [systemctl] is found and [sudo] can be started, a service
    entry that is not a string stops the service step with a [TypeError],
    after its status line has been printed: the services before it, whose
    names hold no NUL character, have been enabled, the ones after it are
    never reached. *)
Theorem services_stop_at_non_string env py_repr h config services
    (pre : list string) v post :
  system_get h config "enable_services" (VList []) = Ok services ->
  truthy h services = true ->
  found env "systemctl" = true ->
  always_launches env "sudo" ->
  py_iter h services = Ok ((VStr <$> pre) ++ v :: post) ->
  Forall (fun s => has_nul s = false) pre ->
  (forall s, v <> VStr s) ->
  enable_services env py_repr h config =
    (concat (service_events <$> pre)
       ++ [Print ("[SERVICE] Enabling " +:+ py_str py_repr h v)],
     Raise TypeError).
Proof.
  intros Hget Ht Hf Hl Hiter Hn Hv. unfold enable_services, lift. rewrite Hget.
  cbn [bind]. rewrite Ht, Hf. cbn [negb]. rewrite Hiter. cbn [bind].
  rewrite (enable_loop_stops env py_repr h pre v post Hl Hn Hv). reflexivity.
Qed.

Lemma services_stop_at_non_string_witness :
  system_get mixed_heap 10%positive "enable_services" (VList []) =
    Ok (VList [VStr "docker"; VInt 7; VStr "sshd"]) /\
  truthy mixed_heap (VList [VStr "docker"; VInt 7; VStr "sshd"]) = true /\
  found debian_host "systemctl" = true /\
  always_launches debian_host "sudo" /\
  py_iter mixed_heap (VList [VStr "docker"; VInt 7; VStr "sshd"]) =
    Ok ((VStr <$> ["docker"]) ++ VInt 7 :: [VStr "sshd"]) /\
  Forall (fun s => has_nul s = false) ["docker"] /\
  (forall s, VInt 7 <> VStr s) /\
  enable_services debian_host (fun _ _ => "7") mixed_heap 10%positive =
    ([Print "[SERVICE] Enabling docker";
      Run ["sudo"; "systemctl"; "enable"; "--now"; "docker"];
      Print "[SERVICE] Enabling 7"],
     Raise TypeError).
Proof.
  assert (Hn : Forall (fun s => has_nul s = false) ["docker"]).
  { apply Forall_cons. split; [reflexivity|constructor]. }
  split; [reflexivity|]. split; [reflexivity|]. split; [reflexivity|].
  split; [exact debian_sudo|]. split; [reflexivity|]. split; [exact Hn|].
  split; [discriminate|].
  exact (services_stop_at_non_string debian_host (fun _ _ => "7") mixed_heap
           10%positive (VList [VStr "docker"; VInt 7; VStr "sshd"])
           ["docker"] (VInt 7) [VStr "sshd"]
           eq_refl eq_refl eq_refl debian_sudo eq_refl Hn
           (fun s H => eq_ind (VInt 7)
                         (fun v => match v with VInt _ => True | _ => False end)
                         I (VStr s) H)).
Defined.

(** ** The whole run *)

Lemma logo_eq : logo = (banner, Ok tt).
Proof. reflexivity. Qed.

Lemma distro_value env v :
  get_linux_distro env = Ok v -> v = VNone \/ exists s, v = VStr s.
Proof.
  unfold get_linux_distro. destruct (os_release env) as [lines|].
  - induction lines as [|line rest IH]; cbn [scan_release].
    + intros [= <-]. left. reflexivity.
    + destruct (String.prefix "PRETTY_NAME" line); [|exact IH].
      destruct (after_char "=" line); [|discriminate].
      intros [= <-]. right. eauto.
  - intros [= <-]. right. eauto.
Qed.

(** What [check_os] prints does not depend on the store. *)
Lemma check_os_store env py_repr h h' :
  check_os env py_repr h = check_os env py_repr h'.
Proof.
  unfold check_os. destruct (String.eqb (system env) "Linux"); [|reflexivity].
  destruct (get_linux_distro env) as [v|e] eqn:E; [|reflexivity].
  destruct (distro_value env v E) as [->|[s ->]]; reflexivity.
Qed.

Lemma check_os_runs env py_repr h : runs (check_os env py_repr h).1 = [].
Proof.
  unfold check_os. destruct (String.eqb (system env) "Linux").
  - destruct (get_linux_distro env); reflexivity.
  - destruct (String.eqb (system env) "Darwin"); reflexivity.
Qed.

Lemma system_get_section h config sys key dflt :
  config_section h config "system" = Ok sys ->
  system_get h config key dflt = Ok (py_get sys key dflt).
Proof. intros H. unfold system_get. rewrite H. reflexivity. Qed.

Lemma privileged_launches env hist cmd :
  always_launches env "sudo" -> always_launches env "brew" ->
  privileged cmd -> launches_after env hist cmd = true.
Proof. intros Hs Hb [rest [-> | ->]]; [apply Hs|apply Hb]. Qed.

Lemma update_command_privileged pm cmd :
  table_get pm update_commands = Some cmd -> privileged cmd.
Proof.
  intros H. simpl in H.
  repeat (destruct (String.eqb pm _);
          [injection H as <-; eexists; eauto|]).
  discriminate.
Qed.

Lemma docker_command_privileged pm cmd :
  table_get pm docker_packages = Some cmd -> privileged cmd.
Proof.
  intros H. simpl in H.
  repeat (destruct (String.eqb pm _);
          [injection H as <-; eexists; eauto|]).
  discriminate.
Qed.

Lemma install_command_privileged pm mk p :
  table_get pm INSTALL_COMMANDS = Some mk -> privileged (mk p).
Proof.
  intros H. simpl in H.
  repeat (destruct (String.eqb pm _);
          [injection H as <-; eexists; eauto|]).
  discriminate.
Qed.

Lemma update_command_nul pm cmd :
  table_get pm update_commands = Some cmd -> existsb has_nul cmd = false.
Proof.
  intros H. simpl in H.
  repeat (destruct (String.eqb pm _); [injection H as <-; reflexivity|]).
  discriminate.
Qed.

Lemma docker_command_nul pm cmd :
  table_get pm docker_packages = Some cmd -> existsb has_nul cmd = false.
Proof.
  intros H. simpl in H.
  repeat (destruct (String.eqb pm _); [injection H as <-; reflexivity|]).
  discriminate.
Qed.

Lemma install_command_nul pm mk p :
  table_get pm INSTALL_COMMANDS = Some mk -> existsb has_nul (mk p) = has_nul p.
Proof.
  intros H. simpl in H.
  repeat (destruct (String.eqb pm _);
          [injection H as <-; cbn; apply orb_false_r|]).
  discriminate.
Qed.

Lemma run_privileged_launched env cmd :
  always_launches env "sudo" -> always_launches env "brew" ->
  privileged cmd -> existsb has_nul cmd = false ->
  run env cmd = ([Run cmd], Ok tt).
Proof.
  intros Hs Hb Hp Hn. unfold run.
  rewrite Hn, (privileged_launches env _ cmd Hs Hb Hp). reflexivity.
Qed.

Lemma auto_update_returns env h config sys :
  always_launches env "sudo" -> always_launches env "brew" ->
  config_section h config "system" = Ok sys ->
  (auto_update_system env h config).2 = Ok tt.
Proof.
  intros Hs Hb H. unfold auto_update_system, lift.
  rewrite (system_get_section _ _ _ _ _ H). cbn [bind].
  destruct (negb _); [reflexivity|].
  destruct (table_get _ update_commands) as [cmd|] eqn:E; [|reflexivity].
  rewrite (run_privileged_launched env cmd Hs Hb
             (update_command_privileged _ _ E) (update_command_nul _ _ E)).
  reflexivity.
Qed.

Lemma install_docker_returns env h config sys :
  always_launches env "sudo" -> always_launches env "brew" ->
  config_section h config "system" = Ok sys ->
  (install_docker env h config).2 = Ok tt.
Proof.
  intros Hs Hb H. unfold install_docker, lift.
  rewrite (system_get_section _ _ _ _ _ H). cbn [bind].
  destruct (negb _); [reflexivity|].
  destruct (table_get _ docker_packages) as [cmd|] eqn:E; [|reflexivity].
  rewrite (run_privileged_launched env cmd Hs Hb
             (docker_command_privileged _ _ E) (docker_command_nul _ _ E)).
  reflexivity.
Qed.

Lemma install_loop_returns mk names :
  (forall p, privileged (mk p)) ->
  (forall p, existsb has_nul (mk p) = has_nul p) ->
  Forall (fun s => has_nul s = false) names ->
  forall env,
    always_launches env "sudo" -> always_launches env "brew" ->
    (install_loop env mk (VStr <$> names)).2 = Ok tt.
Proof.
  intros Hmk Hnul. induction 1 as [|p names Hp _ IH]; intros env Hs Hb;
    [reflexivity|].
  rewrite fmap_cons. cbn [install_loop]. unfold bind_in. rewrite bind_outcome.
  assert (E : (install_one env mk p).2 = Ok tt).
  { unfold install_one. destruct (is_installed env p); [reflexivity|].
    rewrite (run_privileged_launched env (mk p) Hs Hb (Hmk p)
               (eq_trans (Hnul p) Hp)).
    reflexivity. }
  rewrite E. apply IH; apply always_launches_advance; assumption.
Qed.

Lemma auto_install_returns env h config cfg sys :
  always_launches env "sudo" -> always_launches env "brew" ->
  h !! config = Some cfg ->
  config_section h config "system" = Ok sys ->
  (truthy h (py_get cfg "packages" (VList [])) = false \/
   exists names,
     py_iter h (py_get cfg "packages" (VList [])) = Ok (VStr <$> names) /\
     Forall (fun s => has_nul s = false) names) ->
  (auto_install_packages env h config).2 = Ok tt.
Proof.
  intros Hs Hb Hc H Hpk. unfold auto_install_packages, lift, config_get.
  rewrite (system_get_section _ _ _ _ _ H), Hc. cbn [bind].
  destruct (negb (truthy h (py_get sys _ _))); [reflexivity|]. cbn [bind].
  destruct Hpk as [Hf|[names [Hiter Hn]]].
  - rewrite Hf. reflexivity.
  - destruct (negb _); [reflexivity|].
    destruct (table_get _ INSTALL_COMMANDS) as [mk|] eqn:E; [|reflexivity].
    rewrite Hiter. cbn [print bind].
    pose proof (install_loop_returns mk names
                  (fun p => install_command_privileged _ mk p E)
                  (fun p => install_command_nul _ mk p E) Hn env Hs Hb) as Ho.
    destruct (install_loop env mk (VStr <$> names)). exact Ho.
Qed.

Lemma enable_services_returns env py_repr h config sys :
  always_launches env "sudo" ->
  config_section h config "system" = Ok sys ->
  (truthy h (py_get sys "enable_services" (VList [])) = false \/
   exists names,
     py_iter h (py_get sys "enable_services" (VList [])) = Ok (VStr <$> names) /\
     Forall (fun s => has_nul s = false) names) ->
  (enable_services env py_repr h config).2 = Ok tt.
Proof.
  intros Hs H Hsv. unfold enable_services, lift.
  rewrite (system_get_section _ _ _ _ _ H). cbn [bind].
  destruct Hsv as [Hf|[names [Hiter Hn]]].
  - rewrite Hf. reflexivity.
  - destruct (negb (truthy _ _)); [reflexivity|].
    destruct (negb (found _ _)); [reflexivity|].
    rewrite Hiter. cbn [bind].
    rewrite (enable_loop_strings env py_repr h names Hs Hn). reflexivity.
Qed.

(** X16: on a supported system where [sudo] and [brew] commands can always
    be started, with a configuration whose [system] entry is a mapping (or
    missing) and whose package and service lists yield names without a NUL
    character (or are false), the run goes through all six stages: its events are the banner, the
    system line and the events of the four steps in their order, each step
    on the machine as the processes started before it have left it, and the
    exit status is 0. *)
Theorem main_runs_every_step env py_repr h config cfg sys t :
  always_launches env "sudo" -> always_launches env "brew" ->
  check_os env py_repr h = (t, Ok tt) ->
  h !! config = Some cfg ->
  config_section h config "system" = Ok sys ->
  (truthy h (py_get cfg "packages" (VList [])) = false \/
   exists names,
     py_iter h (py_get cfg "packages" (VList [])) = Ok (VStr <$> names) /\
     Forall (fun s => has_nul s = false) names) ->
  (truthy h (py_get sys "enable_services" (VList [])) = false \/
   exists names,
     py_iter h (py_get sys "enable_services" (VList [])) = Ok (VStr <$> names) /\
     Forall (fun s => has_nul s = false) names) ->
  let t1 := (auto_update_system env h config).1 in
  let env1 := advance env (runs t1) in
  let t2 := (install_docker env1 h config).1 in
  let env2 := advance env1 (runs t2) in
  let t3 := (auto_install_packages env2 h config).1 in
  let env3 := advance env2 (runs t3) in
  (main env py_repr h config).1 =
    banner ++ t ++ t1 ++ t2 ++ t3 ++ (enable_services env3 py_repr h config).1 /\
  exit_status (main env py_repr h config).2 = 0%Z.
Proof.
  intros Hs Hb Hos Hc Hsys Hpk Hsv t1 env1 t2 env2 t3 env3.
  assert (Hs1 : always_launches env1 "sudo") by (apply always_launches_advance, Hs).
  assert (Hb1 : always_launches env1 "brew") by (apply always_launches_advance, Hb).
  assert (Hs2 : always_launches env2 "sudo") by (apply always_launches_advance, Hs1).
  assert (Hb2 : always_launches env2 "brew") by (apply always_launches_advance, Hb1).
  assert (Hs3 : always_launches env3 "sudo") by (apply always_launches_advance, Hs2).
  pose proof (auto_update_returns env h config sys Hs Hb Hsys) as H1.
  pose proof (install_docker_returns env1 h config sys Hs1 Hb1 Hsys) as H2.
  pose proof (auto_install_returns env2 h config cfg sys Hs2 Hb2 Hc Hsys Hpk) as H3.
  pose proof (enable_services_returns env3 py_repr h config sys Hs3 Hsys Hsv) as H4.
  unfold main, bind_in. rewrite logo_eq, Hos.
  rewrite !bind_trace, !bind_outcome. cbn [fst snd].
  fold t1. fold env1. rewrite H1. fold t2. fold env2. rewrite H2.
  fold t3. fold env3. rewrite H3, H4. split; reflexivity.
Qed.

Lemma debian_brew : always_launches debian_host "brew".
Proof. intros hist args. reflexivity. Qed.

Lemma default_packages_nul :
  Forall (fun s => has_nul s = false) ["git"; "curl"; "htop"].
Proof.
  apply Forall_cons. split; [reflexivity|].
  apply Forall_cons. split; [reflexivity|].
  apply Forall_cons. split; [reflexivity|constructor].
Defined.

Lemma default_services_nul : Forall (fun s => has_nul s = false) ["docker"].
Proof. apply Forall_cons. split; [reflexivity|constructor]. Defined.

Lemma main_runs_every_step_witness :
  always_launches debian_host "sudo" /\
  always_launches debian_host "brew" /\
  check_os debian_host (fun _ _ => "") module_heap =
    ([Print "OS: Unknown Linux"], Ok tt) /\
  module_heap !! DEFAULT_CONFIG = Some default_items /\
  config_section module_heap DEFAULT_CONFIG "system" = Ok system_items /\
  (main debian_host (fun _ _ => "") module_heap DEFAULT_CONFIG).1 =
    banner ++
    [Print "OS: Unknown Linux";
     Print "[RUN] sudo apt update";
     Run ["sudo"; "apt"; "update"];
     Print "[INFO] Installing Docker";
     Run ["sudo"; "apt"; "install"; "-y"; "docker.io"];
     Print "[INFO] Installing packages using: apt";
     Print "[OK] git already installed";
     Print "[INSTALL] sudo apt install -y curl";
     Run ["sudo"; "apt"; "install"; "-y"; "curl"];
     Print "[INSTALL] sudo apt install -y htop";
     Run ["sudo"; "apt"; "install"; "-y"; "htop"];
     Print "[SERVICE] Enabling docker";
     Run ["sudo"; "systemctl"; "enable"; "--now"; "docker"]] /\
  exit_status (main debian_host (fun _ _ => "") module_heap DEFAULT_CONFIG).2 = 0%Z.
Proof.
  split; [exact debian_sudo|]. split; [exact debian_brew|].
  split; [reflexivity|]. split; [reflexivity|]. split; [reflexivity|].
  exact (main_runs_every_step debian_host (fun _ _ => "") module_heap
           DEFAULT_CONFIG default_items system_items [Print "OS: Unknown Linux"]
           debian_sudo debian_brew eq_refl eq_refl eq_refl
           (or_intror (ex_intro _ ["git"; "curl"; "htop"]
                         (conj eq_refl default_packages_nul)))
           (or_intror (ex_intro _ ["docker"]
                         (conj eq_refl default_services_nul)))).
Defined.

(** X23: when the update step is switched on and its command cannot be
    started, the run ends there: after the banner, the system line and the
    [[RUN]] line the exception of [subprocess.run] ends it with exit status
    1, no process has been started and no later step runs. *)
Theorem main_stops_when_launch_fails env py_repr h config t flag cmd :
  check_os env py_repr h = (t, Ok tt) ->
  system_get h config "auto_update" (VBool false) = Ok flag ->
  truthy h flag = true ->
  table_get (detect_package_manager env) update_commands = Some cmd ->
  launches_after env (past env) cmd = false ->
  main env py_repr h config =
    (banner ++ t ++ [Print ("[RUN] " +:+ String.concat " " cmd)],
     Raise OSError) /\
  exit_status (main env py_repr h config).2 = 1%Z /\
  runs (main env py_repr h config).1 = [].
Proof.
  intros Hos Hflag Ht Hcmd Hno.
  assert (Hup : auto_update_system env h config =
                ([Print ("[RUN] " +:+ String.concat " " cmd)], Raise OSError)).
  { unfold auto_update_system, lift. rewrite Hflag. cbn [bind].
    rewrite Ht. cbn [negb]. rewrite Hcmd. unfold run.
    rewrite (update_command_nul _ _ Hcmd), Hno. reflexivity. }
  assert (E : main env py_repr h config =
              (banner ++ t ++ [Print ("[RUN] " +:+ String.concat " " cmd)],
               Raise OSError)).
  { unfold main, bind_in. rewrite logo_eq, Hos, Hup. cbn [bind].
    rewrite <- ?app_assoc. reflexivity. }
  rewrite E. split; [reflexivity|]. split; [reflexivity|].
  cbn [fst]. rewrite !runs_app. pose proof (check_os_runs env py_repr h) as Hr.
  rewrite Hos in Hr. cbn [fst] in Hr. rewrite Hr. reflexivity.
Qed.

Lemma main_stops_when_launch_fails_witness :
  check_os systemd_linux (fun _ _ => "") module_heap =
    ([Print "OS: Unknown Linux"], Ok tt) /\
  system_get module_heap DEFAULT_CONFIG "auto_update" (VBool false) =
    Ok (VBool true) /\
  truthy module_heap (VBool true) = true /\
  table_get (detect_package_manager systemd_linux) update_commands =
    Some ["sudo"; "apt"; "update"] /\
  launches_after systemd_linux (past systemd_linux) ["sudo"; "apt"; "update"]
    = false /\
  main systemd_linux (fun _ _ => "") module_heap DEFAULT_CONFIG =
    (banner ++ [Print "OS: Unknown Linux"] ++ [Print "[RUN] sudo apt update"],
     Raise OSError) /\
  exit_status (main systemd_linux (fun _ _ => "") module_heap DEFAULT_CONFIG).2
    = 1%Z /\
  runs (main systemd_linux (fun _ _ => "") module_heap DEFAULT_CONFIG).1 = [].
Proof.
  split; [reflexivity|]. split; [reflexivity|]. split; [reflexivity|].
  split; [reflexivity|]. split; [reflexivity|].
  apply (main_stops_when_launch_fails systemd_linux (fun _ _ => "") module_heap
           DEFAULT_CONFIG [Print "OS: Unknown Linux"] (VBool true)
           ["sudo"; "apt"; "update"]); reflexivity.
Defined.

Lemma Forall_runs_bind {A B} (P : list string -> Prop) (m : M A) (k : A -> M B) :
  Forall P (runs m.1) -> (forall a, Forall P (runs (k a).1)) ->
  Forall P (runs (bind m k).1).
Proof.
  intros Hm Hk. rewrite bind_trace, runs_app. apply Forall_app. split; [assumption|].
  destruct m.2; [apply Hk|constructor].
Qed.

Lemma run_privileged env cmd :
  privileged cmd -> Forall privileged (runs (run env cmd).1).
Proof.
  intros H. unfold run. destruct (existsb has_nul cmd); [constructor|].
  destruct (launches_after env (past env) cmd);
    [apply Forall_cons; split; [exact H|constructor]|constructor].
Qed.

Lemma install_loop_privileged mk items :
  (forall p, privileged (mk p)) ->
  forall env, Forall privileged (runs (install_loop env mk items).1).
Proof.
  intros Hmk. induction items as [|v items IH]; intros env; [constructor|].
  destruct v; try (cbn; constructor; fail).
  cbn [install_loop]. unfold bind_in.
  apply Forall_runs_bind; [|intros _; apply IH].
  unfold install_one. destruct (is_installed env s); [constructor|].
  apply Forall_runs_bind; [constructor|]. intros _. apply run_privileged, Hmk.
Qed.

Lemma enable_loop_privileged py_repr h items :
  forall env, Forall privileged (runs (enable_loop env py_repr h items).1).
Proof.
  induction items as [|v items IH]; intros env; [constructor|].
  cbn [enable_loop]. apply Forall_runs_bind; [constructor|]. intros _.
  unfold bind_in. apply Forall_runs_bind; [|intros _; apply IH].
  destruct v; try (cbn; constructor; fail).
  apply run_privileged. eexists. left. reflexivity.
Qed.

Lemma auto_update_privileged env h config :
  Forall privileged (runs (auto_update_system env h config).1).
Proof.
  unfold auto_update_system. apply Forall_runs_bind; [constructor|].
  intros flag. destruct (negb _); [constructor|].
  destruct (table_get _ update_commands) as [cmd|] eqn:E; [|constructor].
  apply Forall_runs_bind; [constructor|]. intros _.
  apply run_privileged. eapply update_command_privileged. eassumption.
Qed.

Lemma install_docker_privileged env h config :
  Forall privileged (runs (install_docker env h config).1).
Proof.
  unfold install_docker. apply Forall_runs_bind; [constructor|].
  intros flag. destruct (negb _); [constructor|].
  destruct (table_get _ docker_packages) as [cmd|] eqn:E; [|constructor].
  apply Forall_runs_bind; [constructor|]. intros _.
  apply run_privileged. eapply docker_command_privileged. eassumption.
Qed.

Lemma auto_install_privileged env h config :
  Forall privileged (runs (auto_install_packages env h config).1).
Proof.
  unfold auto_install_packages. apply Forall_runs_bind; [constructor|].
  intros flag. destruct (negb _); [constructor|].
  apply Forall_runs_bind; [constructor|]. intros packages.
  destruct (negb _); [constructor|].
  destruct (table_get _ INSTALL_COMMANDS) as [mk|] eqn:E; [|constructor].
  apply Forall_runs_bind; [constructor|]. intros _.
  apply Forall_runs_bind; [constructor|]. intros items.
  apply install_loop_privileged. intros p.
  eapply install_command_privileged. eassumption.
Qed.

Lemma enable_services_privileged env py_repr h config :
  Forall privileged (runs (enable_services env py_repr h config).1).
Proof.
  unfold enable_services. apply Forall_runs_bind; [constructor|].
  intros services. destruct (negb _); [constructor|].
  destruct (negb _); [constructor|].
  apply Forall_runs_bind; [constructor|]. intros items.
  apply enable_loop_privileged.
Qed.

(** X17: whatever the host and the configuration, every process a run
    starts goes through [sudo] or is a [brew] command. *)
Theorem main_only_privileged env py_repr h config :
  Forall privileged (runs (main env py_repr h config).1).
Proof.
  unfold main, bind_in. apply Forall_runs_bind; [constructor|]. intros _.
  apply Forall_runs_bind; [rewrite check_os_runs; constructor|]. intros _.
  apply Forall_runs_bind; [apply auto_update_privileged|]. intros _.
  apply Forall_runs_bind; [apply install_docker_privileged|]. intros _.
  apply Forall_runs_bind; [apply auto_install_privileged|]. intros _.
  apply enable_services_privileged.
Qed.

(** X18: a stored configuration whose [system] entry is not a mapping is
    kept as it is by the loader, and the run then fails in the update step:
    after the banner and the system line an [AttributeError] ends it with
    exit status 1, and no process has been started. *)
Theorem program_fails_on_scalar_system fuel env py_repr h c es v t :
  (2 <= fuel)%nat -> has_default h -> loaded_config h c ->
  h !! c = Some es -> dict_get "system" es = Some v -> is_dict v = false ->
  check_os env py_repr h = (t, Ok tt) ->
  exists h',
    program fuel env py_repr (Some (VDict c)) h =
      (Dump h' c :: banner ++ t, Raise AttributeError) /\
    exit_status (program fuel env py_repr (Some (VDict c)) h).2 = 1%Z /\
    runs (program fuel env py_repr (Some (VDict c)) h).1 = [].
Proof.
  intros Hfuel Hdef Hload Hc Hk Hv Hos.
  assert (Ht : truthy h (VDict c) = true).
  { simpl. rewrite Hc. destruct es; [discriminate|reflexivity]. }
  destruct fuel as [|[|n]]; [lia|lia|].
  destruct (merge_default_spec n h c Hdef Hload) as (h' & E & _ & Hle & _).
  exists h'.
  assert (Hload' : load_config (S (S n)) (Some (VDict c)) h = ([Dump h' c], Ok (h', c))).
  { unfold load_config. rewrite Ht. unfold lift. rewrite E. reflexivity. }
  assert (Hup : auto_update_system env h' c = ([], Raise AttributeError)).
  { destruct (Hle _ _ Hc) as [ext Hc'].
    unfold auto_update_system, system_get, config_section.
    rewrite Hc', (dict_get_app_Some _ _ _ _ Hk).
    destruct v; try reflexivity. discriminate. }
  assert (Ep : program (S (S n)) env py_repr (Some (VDict c)) h =
               (Dump h' c :: banner ++ t, Raise AttributeError)).
  { unfold program. rewrite Hload'. cbn [bind fst snd].
    unfold main, bind_in.
    rewrite logo_eq, (check_os_store env py_repr h' h), Hos, Hup.
    cbn [bind]. rewrite !app_nil_r. reflexivity. }
  rewrite Ep. split; [reflexivity|]. split; [reflexivity|].
  cbn [fst]. change (runs (banner ++ t) = []).
  rewrite runs_app. pose proof (check_os_runs env py_repr h) as Hr.
  rewrite Hos in Hr. cbn [fst] in Hr. rewrite Hr. reflexivity.
Qed.

Lemma scalar_system_loaded : loaded_config scalar_system_heap 10%positive.
Proof.
  split; [apply not_default_addr; reflexivity|].
  exists [("system", VInt 5)]. split; [reflexivity|].
  intros k a. simpl. destruct (String.eqb k "system"); discriminate.
Qed.

Lemma program_fails_on_scalar_system_witness :
  (2 <= 2)%nat /\ has_default scalar_system_heap /\
  loaded_config scalar_system_heap 10%positive /\
  scalar_system_heap !! 10%positive = Some [("system", VInt 5)] /\
  dict_get "system" [("system", VInt 5)] = Some (VInt 5) /\
  is_dict (VInt 5) = false /\
  check_os apt_linux (fun _ _ => "") scalar_system_heap =
    ([Print "OS: Unknown Linux"], Ok tt) /\
  exists h',
    program 2 apt_linux (fun _ _ => "") (Some (VDict 10%positive)) scalar_system_heap =
      (Dump h' 10%positive :: banner ++ [Print "OS: Unknown Linux"],
       Raise AttributeError) /\
    exit_status
      (program 2 apt_linux (fun _ _ => "") (Some (VDict 10%positive))
         scalar_system_heap).2 = 1%Z /\
    runs
      (program 2 apt_linux (fun _ _ => "") (Some (VDict 10%positive))
         scalar_system_heap).1 = [].
Proof.
  assert (Hd : has_default scalar_system_heap) by (repeat split).
  split; [lia|]. split; [exact Hd|]. split; [exact scalar_system_loaded|].
  split; [reflexivity|]. split; [reflexivity|]. split; [reflexivity|].
  split; [reflexivity|].
  apply (program_fails_on_scalar_system 2 apt_linux (fun _ _ => "")
           scalar_system_heap 10%positive [("system", VInt 5)] (VInt 5)
           [Print "OS: Unknown Linux"]);
    [lia|exact Hd|exact scalar_system_loaded|reflexivity|reflexivity
    |reflexivity|reflexivity].
Defined.

(** ** The release file *)

Lemma lstrip_head f s a r : lstrip f s = String a r -> f a = false.
Proof.
  induction s as [|c rest IH]; simpl; [discriminate|].
  destruct (f c) eqn:E; [exact IH|]. intros [= <- _]. assumption.
Qed.

Lemma rstrip_head f s a r :
  rstrip f s = String a r -> exists r', s = String a r'.
Proof.
  destruct s as [|c rest]; simpl; [discriminate|].
  destruct (rstrip f rest); [destruct (f c); [discriminate|]|];
    intros [= <- _]; eauto.
Qed.

Lemma append_snoc_nonempty r a : r +:+ String a "" <> "".
Proof. destruct r; discriminate. Qed.

Lemma rstrip_last f s :
  forall r a, rstrip f s = r +:+ String a "" -> f a = false.
Proof.
  induction s as [|c rest IH]; intros r a; simpl.
  - intros H. symmetry in H. exfalso. exact (append_snoc_nonempty r a H).
  - destruct (rstrip f rest) as [|c2 r2] eqn:E.
    + destruct (f c) eqn:Ec.
      * intros H. symmetry in H. exfalso. exact (append_snoc_nonempty r a H).
      * destruct r as [|c' r']; simpl.
        -- intros [= <-]. assumption.
        -- intros [= _ H]. exfalso. exact (append_snoc_nonempty r' a (eq_sym H)).
    + destruct r as [|c' r']; simpl.
      * intros H. inversion H.
      * intros [= _ H]. exact (IH r' a H).
Qed.

Lemma scan_release_skips pre rest :
  Forall (fun line => String.prefix "PRETTY_NAME" line = false) pre ->
  scan_release (pre ++ rest) = scan_release rest.
Proof.
  induction 1 as [|line pre Hline _ IH]; [reflexivity|].
  cbn [app scan_release]. rewrite Hline. exact IH.
Qed.

(** X19: the name is taken from the first line that starts with
    [PRETTY_NAME]: whatever follows the first [=] on it, stripped of
    surrounding white space and then of surrounding double quotes.  Earlier
    lines and everything after that line are ignored, and the name neither
    starts nor ends with a double quote. *)
Theorem distro_first_pretty_name env pre v post :
  os_release env = Some (pre ++ ("PRETTY_NAME=" +:+ v) :: post) ->
  Forall (fun line => String.prefix "PRETTY_NAME" line = false) pre ->
  get_linux_distro env = Ok (VStr (strip is_quote (strip is_space v))) /\
  (forall a r, strip is_quote (strip is_space v) = String a r ->
               is_quote a = false) /\
  (forall r a, strip is_quote (strip is_space v) = r +:+ String a "" ->
               is_quote a = false).
Proof.
  intros Hfile Hpre. split; [|split].
  - unfold get_linux_distro. rewrite Hfile, (scan_release_skips pre _ Hpre).
    reflexivity.
  - intros a r H. unfold strip in H at 1.
    destruct (rstrip_head _ _ _ _ H) as [r' Hl].
    eapply lstrip_head. eassumption.
  - intros r a H. unfold strip in H at 1. eapply rstrip_last. eassumption.
Qed.

Lemma distro_first_pretty_name_witness :
  os_release ubuntu_linux =
    Some (["ID=ubuntu
"] ++ ("PRETTY_NAME=" +:+
         (" " +:+ String (ascii_of_nat 34) "Ubuntu 22.04 LTS"
            +:+ String (ascii_of_nat 34) "
"))
          :: ["PRETTY_NAME=ignored
"]) /\
  Forall (fun line => String.prefix "PRETTY_NAME" line = false) ["ID=ubuntu
"] /\
  get_linux_distro ubuntu_linux = Ok (VStr "Ubuntu 22.04 LTS").
Proof.
  split; [reflexivity|]. split; [repeat constructor|].
  apply (distro_first_pretty_name ubuntu_linux ["ID=ubuntu
"] (" " +:+ String (ascii_of_nat 34) "Ubuntu 22.04 LTS"
            +:+ String (ascii_of_nat 34) "
") ["PRETTY_NAME=ignored
"]); [reflexivity|repeat constructor].
Defined.

(** X20: on Linux, when the first line that starts with [PRETTY_NAME] has
    no [=], the run stops right after the banner with an [IndexError] and
    exit status 1: no system line is printed and no step runs. *)
Theorem main_fails_on_bare_pretty_name env py_repr h config pre line post :
  system env = "Linux" ->
  os_release env = Some (pre ++ line :: post) ->
  Forall (fun l => String.prefix "PRETTY_NAME" l = false) pre ->
  String.prefix "PRETTY_NAME" line = true ->
  after_char "=" line = None ->
  main env py_repr h config = (banner, Raise IndexError) /\
  exit_status (main env py_repr h config).2 = 1%Z.
Proof.
  intros HL Hfile Hpre Hline Heq.
  assert (Hd : get_linux_distro env = Raise IndexError).
  { unfold get_linux_distro. rewrite Hfile, (scan_release_skips pre _ Hpre).
    cbn [scan_release]. rewrite Hline, Heq. reflexivity. }
  assert (E : main env py_repr h config = (banner, Raise IndexError)).
  { unfold main, check_os. rewrite logo_eq, HL. cbn [String.eqb Ascii.eqb Bool.eqb].
    rewrite Hd. cbn [lift bind]. rewrite app_nil_r. reflexivity. }
  rewrite E. split; reflexivity.
Qed.

Lemma main_fails_on_bare_pretty_name_witness :
  system truncated_release_linux = "Linux" /\
  os_release truncated_release_linux =
    Some (["ID=arch
"] ++ "PRETTY_NAME
" :: []) /\
  Forall (fun l => String.prefix "PRETTY_NAME" l = false) ["ID=arch
"] /\
  String.prefix "PRETTY_NAME" "PRETTY_NAME
" = true /\
  after_char "=" "PRETTY_NAME
" = None /\
  main truncated_release_linux (fun _ _ => "") module_heap DEFAULT_CONFIG =
    (banner, Raise IndexError) /\
  exit_status
    (main truncated_release_linux (fun _ _ => "") module_heap DEFAULT_CONFIG).2
  = 1%Z.
Proof.
  split; [reflexivity|]. split; [reflexivity|]. split; [repeat constructor|].
  split; [reflexivity|]. split; [reflexivity|].
  apply (main_fails_on_bare_pretty_name truncated_release_linux (fun _ _ => "")
           module_heap DEFAULT_CONFIG ["ID=arch
"] "PRETTY_NAME
" []); [reflexivity|reflexivity|repeat constructor|reflexivity|reflexivity].
Defined.

(** ** Runs that start nothing, and exit statuses *)

(** X21: when the three flags and the service list are present with values
    Python takes as false, a run starts no process on any host; on a
    supported system it prints the banner, the system line and the four
    lines saying so, and returns. *)
Theorem main_all_disabled env py_repr h config f1 f2 f3 services :
  system_get h config "auto_update" (VBool false) = Ok f1 ->
  truthy h f1 = false ->
  system_get h config "install_docker" (VBool false) = Ok f2 ->
  truthy h f2 = false ->
  system_get h config "auto_install" (VBool false) = Ok f3 ->
  truthy h f3 = false ->
  system_get h config "enable_services" (VList []) = Ok services ->
  truthy h services = false ->
  runs (main env py_repr h config).1 = [] /\
  (forall t, check_os env py_repr h = (t, Ok tt) ->
     main env py_repr h config =
       (banner ++ t ++
        [Print "[INFO] Auto update disabled";
         Print "[INFO] Docker install disabled";
         Print "[INFO] Auto install disabled";
         Print "[INFO] No services to enable"],
        Ok tt)).
Proof.
  intros H1 T1 H2 T2 H3 T3 H4 T4.
  assert (E1 : forall e, auto_update_system e h config =
               ([Print "[INFO] Auto update disabled"], Ok tt)).
  { intros e. unfold auto_update_system, lift. rewrite H1. cbn [bind].
    rewrite T1. reflexivity. }
  assert (E2 : forall e, install_docker e h config =
               ([Print "[INFO] Docker install disabled"], Ok tt)).
  { intros e. unfold install_docker, lift. rewrite H2. cbn [bind].
    rewrite T2. reflexivity. }
  assert (E3 : forall e, auto_install_packages e h config =
               ([Print "[INFO] Auto install disabled"], Ok tt)).
  { intros e. unfold auto_install_packages, lift. rewrite H3. cbn [bind].
    rewrite T3. reflexivity. }
  assert (E4 : forall e, enable_services e py_repr h config =
               ([Print "[INFO] No services to enable"], Ok tt)).
  { intros e. unfold enable_services, lift. rewrite H4. cbn [bind].
    rewrite T4. reflexivity. }
  assert (E : main env py_repr h config =
              bind logo (fun _ => bind (check_os env py_repr h) (fun _ =>
                ([Print "[INFO] Auto update disabled";
                  Print "[INFO] Docker install disabled";
                  Print "[INFO] Auto install disabled";
                  Print "[INFO] No services to enable"], Ok tt)))).
  { unfold main, bind_in. rewrite E1. cbn [bind fst snd].
    rewrite E2. cbn [bind fst snd]. rewrite E3. cbn [bind fst snd].
    rewrite E4. reflexivity. }
  rewrite E. split.
  - rewrite logo_eq.
    rewrite bind_trace, runs_app. cbn [fst snd].
    rewrite bind_trace, runs_app, check_os_runs.
    destruct (check_os env py_repr h).2; reflexivity.
  - intros t Hos. rewrite logo_eq, Hos.
    cbn [bind]. rewrite <- ?app_assoc. reflexivity.
Qed.

Lemma main_all_disabled_witness :
  system_get quiet_heap 10%positive "auto_update" (VBool false) = Ok (VInt 0) /\
  truthy quiet_heap (VInt 0) = false /\
  system_get quiet_heap 10%positive "install_docker" (VBool false) = Ok (VStr "") /\
  truthy quiet_heap (VStr "") = false /\
  system_get quiet_heap 10%positive "auto_install" (VBool false) = Ok VNone /\
  truthy quiet_heap VNone = false /\
  system_get quiet_heap 10%positive "enable_services" (VList []) = Ok (VList []) /\
  truthy quiet_heap (VList []) = false /\
  runs (main systemd_linux (fun _ _ => "") quiet_heap 10%positive).1 = [].
Proof.
  repeat (split; [reflexivity|]).
  apply (main_all_disabled systemd_linux (fun _ _ => "") quiet_heap 10%positive
           (VInt 0) (VStr "") VNone (VList [])); reflexivity.
Defined.

Lemma bind_exits {A B} (m : M A) (k : A -> M B) :
  exits_only_with_1 m.2 -> (forall a, exits_only_with_1 (k a).2) ->
  exits_only_with_1 (bind m k).2.
Proof.
  intros Hm Hk. rewrite bind_outcome. destruct m.2 as [a|e] eqn:E.
  - apply Hk.
  - intros n [= ->]. apply Hm. reflexivity.
Qed.

Lemma ok_exits {A} (a : A) : exits_only_with_1 (Ok a).
Proof. intros n H. discriminate. Qed.

Section merge_exits.
Variable rec : addr -> addr -> heap -> result heap.
Hypothesis rec_exits : forall d c h, exits_only_with_1 (rec d c h).

Lemma merge_entry_exits c k v h : exits_only_with_1 (merge_entry rec c k v h).
Proof.
  unfold merge_entry. destruct (h !! c) as [cur|]; [|intros n H; discriminate].
  destruct (dict_get k cur) as [cv|]; [|apply ok_exits].
  destruct v, cv; try apply ok_exits. apply rec_exits.
Qed.

Lemma merge_items_exits d c n items :
  forall h, exits_only_with_1 (merge_items rec d c n items h).
Proof.
  induction items as [|[k v] items IH]; intros h; simpl.
  - destruct (h !! d); [|intros ? H; discriminate].
    destruct (negb _); [intros ? H; discriminate|apply ok_exits].
  - destruct (h !! d); [|intros ? H; discriminate].
    destruct (negb _); [intros ? H; discriminate|].
    pose proof (merge_entry_exits c k v h) as He.
    destruct (merge_entry rec c k v h); [apply IH|exact He].
Qed.
End merge_exits.

Lemma merge_config_exits fuel :
  forall d c h, exits_only_with_1 (merge_config fuel d c h).
Proof.
  induction fuel as [|n IH]; intros d c h; simpl; [intros ? H; discriminate|].
  destruct (h !! d); [|intros ? H; discriminate].
  apply merge_items_exits. exact IH.
Qed.

Lemma run_exits env cmd : exits_only_with_1 (run env cmd).2.
Proof.
  unfold run. destruct (existsb has_nul cmd); [intros ? H; discriminate|].
  destruct (launches_after env (past env) cmd);
    [apply ok_exits|intros ? H; discriminate].
Qed.

Lemma install_loop_exits mk items :
  forall env, exits_only_with_1 (install_loop env mk items).2.
Proof.
  induction items as [|v items IH]; intros env; [apply ok_exits|].
  destruct v; try (intros ? H; discriminate).
  cbn [install_loop]. unfold bind_in.
  apply bind_exits; [|intros _; apply IH].
  unfold install_one. destruct (is_installed env s); [apply ok_exits|].
  apply bind_exits; [apply ok_exits|]. intros _. apply run_exits.
Qed.

Lemma enable_loop_exits py_repr h items :
  forall env, exits_only_with_1 (enable_loop env py_repr h items).2.
Proof.
  induction items as [|v items IH]; intros env; [apply ok_exits|].
  cbn [enable_loop]. apply bind_exits; [apply ok_exits|]. intros _.
  unfold bind_in. apply bind_exits; [|intros _; apply IH].
  destruct v; try apply run_exits; intros ? H; discriminate.
Qed.

Lemma lift_exits_section h config key dflt :
  exits_only_with_1 (lift (system_get h config key dflt)).2.
Proof.
  unfold lift, system_get, config_section. cbn [snd].
  destruct (h !! config) as [cfg|]; [|intros ? H; discriminate].
  destruct (dict_get "system" cfg) as [v|]; [|apply ok_exits].
  destruct v as [| | | | |a]; try (intros ? H; discriminate).
  destruct (h !! a); [apply ok_exits|intros ? H; discriminate].
Qed.

Lemma py_iter_exits h v : exits_only_with_1 (py_iter h v).
Proof.
  destruct v as [| | | | |a]; try (intros ? H; discriminate); simpl.
  destruct (h !! a); [apply ok_exits|intros ? H; discriminate].
Qed.

Lemma auto_update_exits env h config :
  exits_only_with_1 (auto_update_system env h config).2.
Proof.
  unfold auto_update_system. apply bind_exits; [apply lift_exits_section|].
  intros flag. destruct (negb _); [apply ok_exits|].
  destruct (table_get _ update_commands); [|apply ok_exits].
  apply bind_exits; [apply ok_exits|]. intros _. apply run_exits.
Qed.

Lemma install_docker_exits env h config :
  exits_only_with_1 (install_docker env h config).2.
Proof.
  unfold install_docker. apply bind_exits; [apply lift_exits_section|].
  intros flag. destruct (negb _); [apply ok_exits|].
  destruct (table_get _ docker_packages); [|apply ok_exits].
  apply bind_exits; [apply ok_exits|]. intros _. apply run_exits.
Qed.

Lemma auto_install_exits env h config :
  exits_only_with_1 (auto_install_packages env h config).2.
Proof.
  unfold auto_install_packages. apply bind_exits; [apply lift_exits_section|].
  intros flag. destruct (negb _); [apply ok_exits|].
  apply bind_exits.
  { unfold lift, config_get. cbn [snd].
    destruct (h !! config); [apply ok_exits|intros ? H; discriminate]. }
  intros packages. destruct (negb _); [apply ok_exits|].
  destruct (table_get _ INSTALL_COMMANDS) as [mk|]; [|apply ok_exits].
  apply bind_exits; [apply ok_exits|]. intros _.
  apply bind_exits; [apply py_iter_exits|]. intros items.
  apply install_loop_exits.
Qed.

Lemma enable_services_exits env py_repr h config :
  exits_only_with_1 (enable_services env py_repr h config).2.
Proof.
  unfold enable_services.
  apply bind_exits; [apply lift_exits_section|].
  intros services. destruct (negb _); [apply ok_exits|].
  destruct (negb _); [apply ok_exits|].
  apply bind_exits; [apply py_iter_exits|]. intros items.
  apply enable_loop_exits.
Qed.

Lemma main_exits env py_repr h config :
  exits_only_with_1 (main env py_repr h config).2.
Proof.
  unfold main, bind_in. apply bind_exits; [apply ok_exits|]. intros _.
  apply bind_exits.
  { unfold check_os. destruct (String.eqb (system env) "Linux").
    - apply bind_exits; [|intros ?; apply ok_exits].
      unfold lift, get_linux_distro. cbn [snd].
      destruct (os_release env) as [lines|]; [|apply ok_exits].
      induction lines as [|line rest IH]; cbn [scan_release]; [apply ok_exits|].
      destruct (String.prefix "PRETTY_NAME" line); [|exact IH].
      destruct (after_char "=" line); [apply ok_exits|intros ? H; discriminate].
    - destruct (String.eqb (system env) "Darwin"); [apply ok_exits|].
      intros n [= <-]. reflexivity. }
  intros _. apply bind_exits; [apply auto_update_exits|].
  intros _. apply bind_exits; [apply install_docker_exits|].
  intros _. apply bind_exits; [apply auto_install_exits|].
  intros _. apply enable_services_exits.
Qed.

(** X22: whatever the file, the host and the store, the exit status of the
    program is 0 or 1: the only [SystemExit] is the one of [check_os], with
    status 1, and every other exception ends the process with status 1. *)
Theorem program_exit_status fuel env py_repr file h :
  exit_status (program fuel env py_repr file h).2 = 0%Z \/
  exit_status (program fuel env py_repr file h).2 = 1%Z.
Proof.
  assert (H : exits_only_with_1 (program fuel env py_repr file h).2).
  { unfold program. apply bind_exits; [|intros loaded; apply main_exits].
    unfold load_config. destruct file as [v|].
    - destruct (truthy h v).
      + destruct v; try (intros ? H; discriminate).
        apply bind_exits; [apply merge_config_exits|].
        intros h1. apply ok_exits.
      + apply bind_exits; [apply merge_config_exits|].
        intros h1. apply ok_exits.
    - apply bind_exits; [apply ok_exits|]. intros _.
      apply bind_exits; [apply ok_exits|]. intros _.
      destruct (h !! DEFAULT_CONFIG); [apply ok_exits|intros ? H; discriminate]. }
  destruct (program fuel env py_repr file h).2 as [[]|e]; [left; reflexivity|].
  right. destruct e; try reflexivity. simpl. apply H. reflexivity.
Qed.
